(** * notes-mgr-2: context assembly and knowledge-graph stub

    A shallow embedding of [src/context/context_manager.py] and of the
    validation paths of [src/context/mcp_knowledge_graph.py], followed by the
    properties of the token-budget allocation and of the truncation engine.

    Conventions of the embedding:
    - a Python [str] is a list of Unicode code points ([N]);
    - a Python [int] is a [Z]; a Python [float] is an IEEE 754 binary64 value,
      given by the Standard Library's executable specification [SpecFloat]
      (the primitive floats serve only to evaluate it faster in one proof);
    - a raised exception is a [Raise] result; the module-level budget table,
      which the code mutates through an alias, is threaded as explicit state
      and survives a raise;
    - the document store, the clock and the case mappings of the
      interpreter's Unicode database outside ASCII are the environment of a
      call, the record [world]. *)

From Stdlib Require Import ZArith NArith List String Ascii Lia.
From Stdlib Require Import Floats.SpecFloat.
From Stdlib Require Floats.PrimFloat Floats.FloatOps Floats.FloatAxioms Uint63.
From Stdlib Require DecimalString.
From stdpp Require Import base option list gmap.

Local Open Scope Z_scope.

(* ===================================================================== *)
(** * Python primitives *)
(* ===================================================================== *)

Module Py.

(** ** Strings *)

Definition char : Type := N.
Definition str : Type := list N.

(** A string literal of the source (all literals of the source are ASCII). *)
Definition lit (s : string) : str := map N_of_ascii (list_ascii_of_string s).

(** [len(s)] *)
Definition len (s : str) : Z := Z.of_nat (length s).

(** [s[:n]]: a negative bound counts from the end. *)
Definition slice_to (s : str) (n : Z) : str :=
  if n <? 0 then take (Z.to_nat (len s + n)) s else take (Z.to_nat n) s.

Definition NL : char := 10%N.

(** [s.split('\n')]: never empty, [''.split('\n') == ['']]. *)
Fixpoint split_lines (s : str) : list str :=
  match s with
  | [] => [[]]
  | c :: r =>
      if N.eqb c NL then [] :: split_lines r
      else match split_lines r with
           | l :: ls => (c :: l) :: ls
           | [] => [[c]]
           end
  end.

Definition str_eqb (a b : str) : bool := bool_decide (a = b).

(** [s.startswith(p)] *)
Fixpoint startswith (s p : str) : bool :=
  match p, s with
  | [], _ => true
  | _ :: _, [] => false
  | a :: p', b :: s' => N.eqb a b && startswith s' p'
  end.

(** [s.endswith(p)] *)
Definition endswith (s p : str) : bool := startswith (reverse s) (reverse p).

(** The code points for which [str.isspace] holds. *)
Definition isspace (c : char) : bool :=
  ((9 <=? c) && (c <=? 13) || (28 <=? c) && (c <=? 32)
   || (c =? 133) || (c =? 160) || (c =? 5760)
   || (8192 <=? c) && (c <=? 8202)
   || (c =? 8232) || (c =? 8233) || (c =? 8239) || (c =? 8287)
   || (c =? 12288))%N.

Fixpoint lstrip (s : str) : str :=
  match s with
  | c :: r => if isspace c then lstrip r else s
  | [] => []
  end.

(** [s.strip()] *)
Definition strip (s : str) : str := reverse (lstrip (reverse (lstrip s))).

(** [x in l] for a list of strings. *)
Definition str_in (x : str) (l : list str) : bool := existsb (str_eqb x) l.

(** [s.capitalize()]. On an ASCII string: the first letter in upper case,
    the others in lower case. On any other string Python follows the case
    mappings of the interpreter's Unicode database (the result can differ in
    length); that mapping is the parameter [unicode_capitalize]. *)
Definition upper (c : char) : char :=
  if ((97 <=? c) && (c <=? 122))%N then (c - 32)%N else c.
Definition lower (c : char) : char :=
  if ((65 <=? c) && (c <=? 90))%N then (c + 32)%N else c.
Definition isascii (s : str) : bool := forallb (fun c => (c <? 128)%N) s.
Definition capitalize (unicode_capitalize : str -> str) (s : str) : str :=
  if isascii s then
    match s with
    | [] => []
    | c :: r => upper c :: map lower r
    end
  else unicode_capitalize s.

(** [str(n)] for an integer. *)
Definition str_of_int (n : Z) : str :=
  lit (DecimalString.NilZero.string_of_int (Z.to_int n)).

(** ** Sorting: [list.sort] is stable; with [reverse=True] the list is
    reversed, sorted and reversed again, which keeps equal keys in their
    original order. *)

Fixpoint insert_by {A} (key : A -> Z) (x : A) (l : list A) : list A :=
  match l with
  | [] => [x]
  | y :: l' => if key x <=? key y then x :: l else y :: insert_by key x l'
  end.

Definition stable_sort {A} (key : A -> Z) (l : list A) : list A :=
  foldr (insert_by key) [] l.

Definition sort {A} (key : A -> Z) (reverse : bool) (l : list A) : list A :=
  if reverse then list.reverse (stable_sort key (list.reverse l)) else stable_sort key l.

(** [max(l, key=...)] on a non-empty list: the first maximal element. *)
Fixpoint max_by {A} (key : A -> Z) (best : A) (l : list A) : A :=
  match l with
  | [] => best
  | x :: l' => max_by key (if key best <? key x then x else best) l'
  end.

(** [l.index(x)] when [x in l]. *)
Fixpoint index (x : str) (l : list str) : Z :=
  match l with
  | [] => 0
  | y :: l' => if str_eqb x y then 0 else 1 + index x l'
  end.

(** ** Exceptions *)

Inductive exn := OverflowError | ZeroDivisionError | ValueError.

Inductive res (A : Type) :=
| Ok (a : A)
| Raise (e : exn).
Arguments Ok {A} a.
Arguments Raise {A} e.

(** ** Floats: IEEE 754 binary64 *)

Definition prec : Z := 53.
Definition emax : Z := 1024.
Definition float : Type := spec_float.

(** Conversion of an [int] operand of a float operation: round to nearest
    even, [OverflowError] when the integer is too large. *)
Definition float_of_int (n : Z) : res float :=
  match binary_normalize prec emax n 0 false with
  | S754_infinity _ => Raise OverflowError
  | f => Ok f
  end.

(** [a / b] on integers: the correctly rounded quotient. As in CPython,
    operands of at most 53 bits are converted (exactly) and divided as
    floats; larger ones are divided as integers and rounded once. *)
Definition true_div (a b : Z) : res float :=
  if b =? 0 then Raise ZeroDivisionError
  else if a =? 0 then Ok (S754_zero (b <? 0))
  else
    let q :=
      if (Z.abs a <? 9007199254740992) && (Z.abs b <? 9007199254740992) then
        SFdiv prec emax (binary_normalize prec emax a 0 false)
                        (binary_normalize prec emax b 0 false)
      else
        SFdiv prec emax (S754_finite (a <? 0) (Z.to_pos (Z.abs a)) 0)
                        (S754_finite (b <? 0) (Z.to_pos (Z.abs b)) 0) in
    match q with
    | S754_infinity _ => Raise OverflowError
    | f => Ok f
    end.

(** [n * f] for an integer [n] and a float [f]. *)
Definition int_mul_float (n : Z) (f : float) : res float :=
  match float_of_int n with
  | Ok x => Ok (SFmul prec emax x f)
  | Raise e => Raise e
  end.

(** [int(f)]: truncation towards zero. *)
Definition int_of_float (f : float) : res Z :=
  match f with
  | S754_zero _ => Ok 0
  | S754_finite s m e =>
      let a := if 0 <=? e then Z.shiftl (Z.pos m) e else Z.shiftr (Z.pos m) (- e) in
      Ok (if s then - a else a)
  | S754_infinity _ => Raise OverflowError
  | S754_nan => Raise ValueError
  end.

(** The literal [2.0]. *)
Definition float_2_0 : float := S754_finite false 4503599627370496 (-51).

End Py.

Import Py.
#[global] Arguments lit : simpl never.

(* ===================================================================== *)
(** * context_manager.py *)
(* ===================================================================== *)

Module ContextManager.

(** ** The budget tables *)

(** The keys of one budget dictionary, in insertion order. *)
Inductive key := Readme | Architecture | Glossary | Snapshots | Total.

Definition keys : list key := [Readme; Architecture; Glossary; Snapshots; Total].

Definition key_eqb (a b : key) : bool :=
  match a, b with
  | Readme, Readme | Architecture, Architecture | Glossary, Glossary
  | Snapshots, Snapshots | Total, Total => true
  | _, _ => false
  end.

(** One entry of [DEFAULT_TOKEN_BUDGETS]: a dictionary with a fixed key set. *)
Record budgets := Budgets
  { readme : Z; architecture : Z; glossary : Z; snapshots : Z; total : Z }.

Definition get (b : budgets) (k : key) : Z :=
  match k with
  | Readme => readme b
  | Architecture => architecture b
  | Glossary => glossary b
  | Snapshots => snapshots b
  | Total => total b
  end.

Definition set (b : budgets) (k : key) (v : Z) : budgets :=
  match k with
  | Readme => Budgets v (architecture b) (glossary b) (snapshots b) (total b)
  | Architecture => Budgets (readme b) v (glossary b) (snapshots b) (total b)
  | Glossary => Budgets (readme b) (architecture b) v (snapshots b) (total b)
  | Snapshots => Budgets (readme b) (architecture b) (glossary b) v (total b)
  | Total => Budgets (readme b) (architecture b) (glossary b) (snapshots b) v
  end.

(** The detail levels that have an entry of their own. *)
Inductive level := Minimal | Standard | Comprehensive.

(** The module-level dictionary [DEFAULT_TOKEN_BUDGETS]. *)
Record tables := Tables
  { minimal : budgets; standard : budgets; comprehensive : budgets }.

Definition DEFAULT_TOKEN_BUDGETS : tables :=
  {| minimal := Budgets 500 1000 500 1000 3000;
     standard := Budgets 1000 2000 1000 4000 8000;
     comprehensive := Budgets 2000 3000 2000 8000 15000 |}.

Definition entry (t : tables) (l : level) : budgets :=
  match l with
  | Minimal => minimal t
  | Standard => standard t
  | Comprehensive => comprehensive t
  end.

Definition set_entry (t : tables) (l : level) (b : budgets) : tables :=
  match l with
  | Minimal => Tables b (standard t) (comprehensive t)
  | Standard => Tables (minimal t) b (comprehensive t)
  | Comprehensive => Tables (minimal t) (standard t) b
  end.

(** [DEFAULT_TOKEN_BUDGETS.get(detail_level, DEFAULT_TOKEN_BUDGETS["standard"])]:
    the entry the local name [token_budgets] is bound to (an alias, not a
    copy). *)
Definition resolve (detail_level : str) : level :=
  if str_eqb detail_level (lit "minimal") then Minimal
  else if str_eqb detail_level (lit "standard") then Standard
  else if str_eqb detail_level (lit "comprehensive") then Comprehensive
  else Standard.

(** ** State and exceptions *)

Definition M (A : Type) : Type := tables -> res A * tables.

Definition ret {A} (a : A) : M A := fun t => (Ok a, t).
Definition bind {A B} (f : A -> M B) (m : M A) : M B :=
  fun t => match m t with
           | (Ok a, t') => f a t'
           | (Raise e, t') => (Raise e, t')
           end.
#[global] Instance M_ret : MRet M := @ret.
#[global] Instance M_bind : MBind M := @bind.
Definition lift {A} (r : res A) : M A := fun t => (r, t).
Definition read (l : level) (k : key) : M Z := fun t => (Ok (get (entry t l) k), t).
Definition write (l : level) (k : key) (v : Z) : M unit :=
  fun t => (Ok tt, set_entry t l (set (entry t l) k v)).
Definition values (l : level) : M (list Z) :=
  fun t => (Ok (map (get (entry t l)) keys), t).

Fixpoint for_each {A} (l : list A) (body : A -> M unit) : M unit :=
  match l with
  | [] => ret tt
  | x :: l' => body x ;; for_each l' body
  end.

(** [token_budgets[k] = int(token_budgets[k] * f)] *)
Definition scale_key (l : level) (k : key) (f : float) : M unit :=
  v ← read l k;
  p ← lift (int_mul_float v f);
  n ← lift (int_of_float p);
  write l k n.

(** The focus boost (source lines 302 to 312); [if focus_area:] is false for
    [None] and for the empty string. *)
Definition focus_boost (token_budgets : level) (focus_area : option str) : M unit :=
  match focus_area with
  | Some ((_ :: _) as focus) =>
      let focus_budget_multiplier := float_2_0 in
      if str_eqb focus (lit "general") then
        scale_key token_budgets Readme focus_budget_multiplier
      else if str_eqb focus (lit "architecture") then
        scale_key token_budgets Architecture focus_budget_multiplier
      else if str_in focus [lit "knowledge_graph"; lit "workflow"; lit "agent"] then
        scale_key token_budgets Snapshots focus_budget_multiplier
      else ret tt
  | _ => ret tt
  end.

(** The capping step (source lines 314 to 322); [sum(token_budgets.values())]
    runs over all five entries of the dictionary. *)
Definition cap_budgets (token_budgets : level) (max_tokens : Z) : M unit :=
  vs ← values token_budgets;
  let total_budget := fold_left Z.add vs 0 in
  if total_budget >? max_tokens then
    scale_factor ← lift (true_div max_tokens total_budget);
    for_each keys (fun k =>
      if negb (key_eqb k Total) then scale_key token_budgets k scale_factor
      else ret tt);;
    write token_budgets Total max_tokens
  else ret tt.

(** The budget-adjustment prologue of [load_project_context]
    (source lines 299 to 322); it returns the entry [token_budgets] names. *)
Definition adjust_budgets (detail_level : str) (focus_area : option str)
    (max_tokens : Z) : M level :=
  let token_budgets := resolve detail_level in
  focus_boost token_budgets focus_area;;
  cap_budgets token_budgets max_tokens;;
  ret token_budgets.

(** ** Token estimate and truncation *)

(** [len(text) // 4] *)
Definition estimate_tokens (text : str) : Z := len text / 4.

Definition CONTENT_MARKER : str :=
  [NL; NL] ++ lit "[Content truncated due to token budget]".
Definition SECTION_MARKER : str :=
  [NL; NL] ++ lit "[Section truncated due to token budget]" ++ [NL; NL].

Record section := Section_ { title : str; content : str; priority : Z }.

(** One iteration of the line loop (source lines 85 to 95). *)
Definition split_step (preserve_sections : list str)
    (st : list section * section) (line : str) : list section * section :=
  let '(sections, current_section) := st in
  if startswith line (lit "## ") then
    let section_title := strip (drop 3 line) in
    let priority := if str_in section_title preserve_sections then 2 else 1 in
    (sections ++ [current_section],
     Section_ section_title (line ++ [NL]) priority)
  else
    (sections,
     Section_ (title current_section)
              (content current_section ++ line ++ [NL])
              (priority current_section)).

(** The splitter (source lines 81 to 98). *)
Definition split_sections (text : str) (preserve_sections : list str) : list section :=
  let '(sections, current_section) :=
    fold_left (split_step preserve_sections) (split_lines text)
              ([], Section_ (lit "Header") [] 0) in
  sections ++ [current_section].

(** [[s for s in sections if s["priority"] == p]] *)
Definition with_priority (p : Z) (sections : list section) : list section :=
  filter (fun s => priority s = p) sections.

(** One pass over a bucket (source lines 108 to 118, and the two copies
    below them); the [break] leaves the loop with a budget of 0. *)
Fixpoint emit (bucket : list section) (result : str) (remaining_budget : Z)
    : str * Z :=
  match bucket with
  | [] => (result, remaining_budget)
  | s :: bucket' =>
      let section_tokens := estimate_tokens (content s) in
      if section_tokens <=? remaining_budget then
        emit bucket' (result ++ content s) (remaining_budget - section_tokens)
      else
        let char_budget := remaining_budget * 4 in
        (result ++ slice_to (content s) char_budget ++ SECTION_MARKER, 0)
  end.

Definition guarded_emit (bucket : list section) (st : str * Z) : str * Z :=
  if st.2 >? 0 then emit bucket st.1 st.2 else st.

Definition truncate_to_token_budget (text : str) (budget : Z)
    (preserve_sections : option (list str)) : str :=
  if estimate_tokens text <=? budget then text
  else match preserve_sections with
       | None | Some [] =>
           let char_budget := budget * 4 in
           slice_to text char_budget ++ CONTENT_MARKER
       | Some preserve =>
           let sections := sort priority true (split_sections text preserve) in
           let st := emit (with_priority 2 sections) [] budget in
           let st := guarded_emit (with_priority 1 sections) st in
           let st := guarded_emit (with_priority 0 sections) st in
           st.1
       end.

(** ** The document store and the clock *)

(** A regular, readable file of a snapshot directory; [st_mtime] is kept as
    an integer, only its order is used. *)
Record file := File { name : str; st_mtime : Z; data : str }.

Record world := World
  { (** content of [README.md], [architecture.md], [glossary.md];
        [None] when the file does not exist *)
    readme_md : option str;
    architecture_md : option str;
    glossary_md : option str;
    (** entries of [snapshots/<type>/<level>] in directory order;
        [None] when the directory does not exist *)
    listdir : str -> str -> option (list file);
    (** [datetime.datetime.now().strftime('%Y-%m-%d %H:%M:%S')] *)
    strftime_now : str;
    (** [str.capitalize] of the interpreter on strings that are not ASCII *)
    unicode_capitalize : str -> str }.

Definition SNAPSHOT_TYPE_PRIORITIES : list str :=
  [lit "general"; lit "architecture"; lit "knowledge_graph"; lit "workflow"].

(** [IMPORTANT_SECTIONS.get(snapshot_type, [])] *)
Definition IMPORTANT_SECTIONS_get (snapshot_type : str) : list str :=
  if str_eqb snapshot_type (lit "general") then
    [lit "Status Summary"; lit "Active Components"; lit "Current Challenges"]
  else if str_eqb snapshot_type (lit "architecture") then
    [lit "Architecture Overview"; lit "Component Structure"; lit "Technical Decisions"]
  else if str_eqb snapshot_type (lit "knowledge_graph") then
    [lit "Graph Schema"; lit "Entity Types"; lit "Relationship Types"]
  else if str_eqb snapshot_type (lit "workflow") then
    [lit "User Workflows"; lit "Data Processing Pipeline";
     lit "Note Management Procedures"]
  else [].

(** [snapshot_dir.glob("*.md")] *)
Definition glob_md (entries : list file) : list file :=
  filter (fun f => endswith (name f) (lit ".md") = true) entries.

Definition get_latest_snapshot (w : world) (snapshot_type hierarchy_level : str)
    : option file * str :=
  let not_found :=
    lit "No snapshots found for type '" ++ snapshot_type
      ++ lit "' at level '" ++ hierarchy_level ++ lit "'" in
  match listdir w snapshot_type hierarchy_level with
  | None => (None, not_found)
  | Some entries =>
      match glob_md entries with
      | [] => (None, not_found)
      | f :: snapshot_files =>
          let latest_snapshot := max_by st_mtime f snapshot_files in
          (Some latest_snapshot, data latest_snapshot)
      end
  end.

Definition load_document (missing : str) (doc : option str) (token_budget : Z) : str :=
  match doc with
  | None => missing
  | Some content => truncate_to_token_budget content token_budget None
  end.

Definition load_readme (w : world) (token_budget : Z) : str :=
  load_document (lit "README not found") (readme_md w) token_budget.

Definition load_architecture (w : world) (token_budget : Z) : str :=
  load_document (lit "Architecture document not found") (architecture_md w) token_budget.

Definition load_glossary (w : world) (token_budget : Z) : str :=
  load_document (lit "Glossary not found") (glossary_md w) token_budget.

(** [hierarchy_level_map.get(detail_level, "standard")] *)
Definition hierarchy_level_of (detail_level : str) : str :=
  if str_eqb detail_level (lit "minimal") then lit "summary"
  else if str_eqb detail_level (lit "standard") then lit "standard"
  else if str_eqb detail_level (lit "comprehensive") then lit "detailed"
  else lit "standard".

Record snapshot := Snapshot
  { snap_type : str; snap_path : file; snap_content : str; snap_tokens : Z }.

(** The loading loop (source lines 244 to 253): a type without a snapshot
    adds nothing. *)
Fixpoint collect_snapshots (w : world) (hierarchy_level : str)
    (snapshot_types : list str) : list snapshot :=
  match snapshot_types with
  | [] => []
  | snapshot_type :: rest =>
      match get_latest_snapshot w snapshot_type hierarchy_level with
      | (Some snapshot_path, snapshot_content) =>
          Snapshot snapshot_type snapshot_path snapshot_content
                   (estimate_tokens snapshot_content)
            :: collect_snapshots w hierarchy_level rest
      | (None, _) => collect_snapshots w hierarchy_level rest
      end
  end.

Definition snapshot_priority (s : snapshot) : Z :=
  if str_in (snap_type s) SNAPSHOT_TYPE_PRIORITIES
  then index (snap_type s) SNAPSHOT_TYPE_PRIORITIES else 999.

(** The formatting loop (source lines 262 to 283). *)
Fixpoint format_snapshots (w : world) (snapshots : list snapshot) (result : str)
    (remaining_budget : Z) : str :=
  match snapshots with
  | [] => result
  | s :: rest =>
      if remaining_budget <=? 0 then result
      else
        let snapshot_header :=
          lit "## " ++ capitalize (unicode_capitalize w) (snap_type s)
            ++ lit " Snapshot" ++ [NL; NL] in
        let header_tokens := estimate_tokens snapshot_header in
        if header_tokens <=? remaining_budget then
          let result := result ++ snapshot_header in
          let remaining_budget := remaining_budget - header_tokens in
          let important_sections := IMPORTANT_SECTIONS_get (snap_type s) in
          let truncated_content :=
            truncate_to_token_budget (snap_content s) remaining_budget
                                     (Some important_sections) in
          format_snapshots w rest (result ++ truncated_content ++ [NL; NL])
                           (remaining_budget - estimate_tokens truncated_content)
        else result
  end.

Definition load_snapshots (w : world) (detail_level : str)
    (snapshot_types : option (list str)) (token_budget : Z) : str :=
  let snapshot_types :=
    match snapshot_types with
    | None => SNAPSHOT_TYPE_PRIORITIES
    | Some l => l
    end in
  let hierarchy_level := hierarchy_level_of detail_level in
  let snapshots := collect_snapshots w hierarchy_level snapshot_types in
  let snapshots := sort snapshot_priority false snapshots in
  format_snapshots w snapshots (lit "# Project Snapshots" ++ [NL; NL]) token_budget.

Definition load_project_context (w : world) (detail_level : str)
    (focus_area : option str) (max_tokens : Z) : M str :=
  token_budgets ← adjust_budgets detail_level focus_area max_tokens;
  let context := lit "# Notes Manager 2 Project Context" ++ [NL; NL] in
  let context :=
    context ++ lit "*Context loaded at " ++ strftime_now w ++ lit "*" ++ [NL; NL] in
  b_readme ← read token_budgets Readme;
  let readme_content := load_readme w b_readme in
  let context :=
    context ++ (lit "## Project Overview" ++ [NL; NL]) ++ readme_content ++ [NL; NL] in
  b_architecture ← read token_budgets Architecture;
  let architecture_content := load_architecture w b_architecture in
  let context :=
    context ++ (lit "## Architecture" ++ [NL; NL]) ++ architecture_content ++ [NL; NL] in
  b_glossary ← read token_budgets Glossary;
  let glossary_content := load_glossary w b_glossary in
  let context :=
    context ++ (lit "## Glossary" ++ [NL; NL]) ++ glossary_content ++ [NL; NL] in
  let snapshot_types :=
    match focus_area with
    | Some ((_ :: _) as focus) =>
        if str_in focus SNAPSHOT_TYPE_PRIORITIES then
          Some ([focus] ++ filter (fun st => st ≠ focus) SNAPSHOT_TYPE_PRIORITIES)
        else None
    | _ => None
    end in
  b_snapshots ← read token_budgets Snapshots;
  let snapshots_content := load_snapshots w detail_level snapshot_types b_snapshots in
  ret (context ++ snapshots_content).

End ContextManager.

Import ContextManager.

(* ===================================================================== *)
(** * mcp_knowledge_graph.py: the validation paths *)
(* ===================================================================== *)

Module KnowledgeGraph.

(** The values of a [Dict[str, Any]] that the modelled paths inspect:
    scalars, strings and lists. *)
#[warnings="-register-all"]
Inductive value :=
| VNone
| VBool (b : bool)
| VInt (n : Z)
| VStr (s : str)
| VList (l : list value).

Abbreviation dict := (gmap str value).

(** A line written to standard output by [print]; a line that embeds the
    [repr] of a dictionary keeps the dictionary itself. *)
Inductive printed :=
| Line (s : str)
| LineRepr (prefix : str) (d : dict).

(** [k in d] *)
Definition has_key (d : dict) (k : str) : bool := bool_decide (is_Some (d !! k)).


(** [len(v)]: [TypeError] with its message for a value without a length. *)
Definition py_len (v : value) : str + Z :=
  match v with
  | VStr s => inr (len s)
  | VList l => inr (Z.of_nat (length l))
  | VNone => inl (lit "object of type 'NoneType' has no len()")
  | VBool _ => inl (lit "object of type 'bool' has no len()")
  | VInt _ => inl (lit "object of type 'int' has no len()")
  end.



(** [snapshot.get(k, [])] *)
Definition get_or_empty (d : dict) (k : str) : value := default (VList []) (d !! k).

Definition failure (error : str) : dict :=
  <[lit "success" := VBool false]> (<[lit "error" := VStr error]> ∅).

(** [import_graph_snapshot]: the response and what was printed. *)
Definition import_graph_snapshot (snapshot : dict) : dict * list printed :=
  if negb (has_key snapshot (lit "entities"))
     || negb (has_key snapshot (lit "relationships"))
  then (failure (lit "Invalid snapshot format"), [])
  else
    match py_len (get_or_empty snapshot (lit "entities")) with
    | inl e => (failure e, [Line (lit "Error importing graph snapshot: " ++ e)])
    | inr entities_imported =>
        match py_len (get_or_empty snapshot (lit "relationships")) with
        | inl e => (failure e, [Line (lit "Error importing graph snapshot: " ++ e)])
        | inr relationships_imported =>
            (<[lit "success" := VBool true]>
               (<[lit "entities_imported" := VInt entities_imported]>
                  (<[lit "relationships_imported" := VInt relationships_imported]>
                     (<[lit "message" := VStr (lit "Graph snapshot imported successfully")]>
                        ∅))),
             [Line (lit "Imported graph snapshot with "
                      ++ str_of_int entities_imported ++ lit " entities and "
                      ++ str_of_int relationships_imported ++ lit " relationships")])
        end
    end.



(** The response of [export_graph_snapshot]: a dictionary with the keys
    success, snapshot and message, the snapshot being a dictionary itself. *)
Record export_response := ExportResponse
  { export_success : bool; export_snapshot : dict; export_message : str }.

(** [export_graph_snapshot]; [isoformat_now] is
    [datetime.datetime.now().isoformat()]. *)
Definition export_graph_snapshot (isoformat_now : str)
    : export_response * list printed :=
  let snapshot : dict :=
    <[lit "entities" := VList []]>
      (<[lit "relationships" := VList []]>
         (<[lit "timestamp" := VStr isoformat_now]> ∅)) in
  ({| export_success := true;
      export_snapshot := snapshot;
      export_message := lit "Graph snapshot exported successfully" |},
   [Line (lit "Exported graph snapshot at " ++ isoformat_now)]).

End KnowledgeGraph.

Import KnowledgeGraph.

(* ===================================================================== *)
(** * Vocabulary of the statements *)
(* ===================================================================== *)

(** The sum of the four component allowances of an entry. *)
Definition component_sum (b : budgets) : Z :=
  readme b + architecture b + glossary b + snapshots b.

(** What [sum(token_budgets.values())] computes on an entry. *)
Definition values_sum (b : budgets) : Z :=
  fold_left Z.add (map (get b) keys) 0.

(** The component a focus area boosts, if any. *)
Definition boosted_key (focus_area : option str) : option key :=
  match focus_area with
  | Some ((_ :: _) as focus) =>
      if str_eqb focus (lit "general") then Some Readme
      else if str_eqb focus (lit "architecture") then Some Architecture
      else if str_in focus [lit "knowledge_graph"; lit "workflow"; lit "agent"]
           then Some Snapshots
      else None
  | _ => None
  end.

Definition boost (l : level) (k : option key) : M unit :=
  match k with
  | Some k => scale_key l k float_2_0
  | None => ret tt
  end.

(** The tables after the focus boost on the tables of the module. *)
Definition boosted (l : level) (k : option key) : tables :=
  (boost l k DEFAULT_TOKEN_BUDGETS).2.

(** [int(c * s)] *)
Definition scaled (c : Z) (s : float) : res Z :=
  match int_mul_float c s with
  | Ok p => int_of_float p
  | Raise e => Raise e
  end.

Definition focus_keys : list (option key) :=
  [None; Some Readme; Some Architecture; Some Snapshots].

(** Evaluation of the capping step by the primitive floats and integers. *)
Module Hardware.
Import PrimInt63.
#[local] Open Scope Z_scope.

(** One component: the hardware product [fc * q] is at least 0 and below
    [k + 1], where [k] is the integer quotient of [c * m] by the sum. *)
Definition check_scaled (fc q : PrimFloat.float) (cu mu Su : int) : option int :=
  let ku := PrimInt63.div (PrimInt63.mul cu mu) Su in
  let p := PrimFloat.mul fc q in
  if PrimInt63.ltb ku 4503599627370496%uint63
     && PrimFloat.leb PrimFloat.zero p
     && PrimFloat.ltb p (PrimFloat.of_uint63 (PrimInt63.add ku 1%uint63))
  then Some ku else None.

(** The capping step of an entry [b] for the ceiling [mu]: the scale factor
    lies between 0 and 1 and the bounds of the four components sum to at
    most the ceiling. *)
Definition cap_check (b : budgets) : int -> bool :=
  let cu1 := Uint63.of_Z (readme b) in
  let cu2 := Uint63.of_Z (architecture b) in
  let cu3 := Uint63.of_Z (glossary b) in
  let cu4 := Uint63.of_Z (snapshots b) in
  let Su := Uint63.of_Z (values_sum b) in
  let f1 := PrimFloat.of_uint63 cu1 in
  let f2 := PrimFloat.of_uint63 cu2 in
  let f3 := PrimFloat.of_uint63 cu3 in
  let f4 := PrimFloat.of_uint63 cu4 in
  let fS := PrimFloat.of_uint63 Su in
  fun mu =>
    let q := PrimFloat.div (PrimFloat.of_uint63 mu) fS in
    PrimFloat.leb PrimFloat.zero q && PrimFloat.leb q PrimFloat.one
    && match check_scaled f1 q cu1 mu Su, check_scaled f2 q cu2 mu Su,
             check_scaled f3 q cu3 mu Su, check_scaled f4 q cu4 mu Su with
       | Some k1, Some k2, Some k3, Some k4 =>
           PrimInt63.leb (PrimInt63.add (PrimInt63.add (PrimInt63.add k1 k2) k3) k4) mu
       | _, _, _, _ => false
       end.

(** [p] holds on [mu, mu+1, ..., mu+n-1]. *)
Fixpoint all_from (n : nat) (mu : int) (p : int -> bool) : bool :=
  match n with
  | O => true
  | S k => p mu && all_from k (PrimInt63.add mu 1%uint63) p
  end.

(** The entries of the tables are small non-negative integers. *)
Definition in_range (b : budgets) : bool :=
  (0 <=? readme b) && (readme b <? 2 ^ 52)
  && (0 <=? architecture b) && (architecture b <? 2 ^ 52)
  && (0 <=? glossary b) && (glossary b <? 2 ^ 52)
  && (0 <=? snapshots b) && (snapshots b <? 2 ^ 52)
  && (0 <=? total b) && (values_sum b <? 2 ^ 53).

(** Every ceiling below the boosted sum, for one entry and one boost. *)
Definition scaled_ok (l : level) (k : option key) : bool :=
  let b := entry (boosted l k) l in
  in_range b
  && all_from (Z.to_nat (values_sum b - 1)) 1%uint63 (cap_check b).

End Hardware.

Definition content_length (l : list section) : nat :=
  sum_list_with (fun s => length (content s)) l.

(** The priority the splitter gives a section opened by a heading line. *)
Definition classified (preserve : list str) (s : section) : Prop :=
  priority s = if str_in (title s) preserve then 2 else 1.

(** The sections of a document: the preamble "Header" first, with priority
    0, then one classified section per heading line. *)
Definition shaped (preserve : list str) (l : list section) : Prop :=
  exists h rest, l = h :: rest /\ title h = lit "Header" /\ priority h = 0
                 /\ Forall (classified preserve) rest.

Definition all_sections (st : list section * section) : list section :=
  st.1 ++ [st.2].

(** What a run of the passes has written: the contents of the first [k]
    sections of the processing order, whole, then possibly a cut part of
    section [k] closed by the marker. *)
Definition emitted (ordered : list section) (out : str) : Prop :=
  exists k tail,
    (k <= length ordered)%nat
    /\ out = concat (map content (take k ordered)) ++ tail
    /\ (tail = []
        \/ exists s n, ordered !! k = Some s
                       /\ tail = slice_to (content s) n ++ SECTION_MARKER).

(** The state between two passes: everything so far was written whole, or
    the budget is used up and no later pass will run. *)
Definition pass_inv (ordered : list section) (st : str * Z) : Prop :=
  st.1 = concat (map content ordered) \/ (st.2 <= 0 /\ emitted ordered st.1).

(** The processing order of the section path: the three buckets, each in
    document order. *)
Definition processing_order (text : str) (preserve : list str) : list section :=
  let sections := split_sections text preserve in
  with_priority 2 sections ++ with_priority 1 sections ++ with_priority 0 sections.

(** A document with a preamble, a Normal section "N" and a Preserved
    section "X". *)
Definition sample_text : str :=
  lit "pre" ++ [NL] ++ lit "## N" ++ [NL] ++ lit "body n" ++ [NL]
    ++ lit "## X" ++ [NL] ++ lit "body x".

(** The (type, level) directory is missing or holds no [*.md] file. *)
Definition no_snapshot_files (w : world) (snapshot_type hierarchy_level : str) : Prop :=
  match listdir w snapshot_type hierarchy_level with
  | None => True
  | Some entries => glob_md entries = []
  end.

Definition not_found_message (snapshot_type hierarchy_level : str) : str :=
  lit "No snapshots found for type '" ++ snapshot_type
    ++ lit "' at level '" ++ hierarchy_level ++ lit "'".

(** The snapshot types [load_project_context] asks for. *)
Definition requested_types (focus_area : option str) : option (list str) :=
  match focus_area with
  | Some ((_ :: _) as focus) =>
      if str_in focus SNAPSHOT_TYPE_PRIORITIES then
        Some ([focus] ++ filter (fun st => st <> focus) SNAPSHOT_TYPE_PRIORITIES)
      else None
  | _ => None
  end.

(** The three documents with their headers, as the assembler writes them. *)
Definition documents_part (w : world) (b : budgets) : str :=
  ((((lit "# Notes Manager 2 Project Context" ++ [NL; NL])
       ++ lit "*Context loaded at " ++ strftime_now w ++ lit "*" ++ [NL; NL])
      ++ (lit "## Project Overview" ++ [NL; NL]) ++ load_readme w (readme b) ++ [NL; NL])
     ++ (lit "## Architecture" ++ [NL; NL])
          ++ load_architecture w (architecture b) ++ [NL; NL])
    ++ (lit "## Glossary" ++ [NL; NL]) ++ load_glossary w (glossary b) ++ [NL; NL].

(** A store with the three documents and no snapshot directory. *)
Definition sample_world : world :=
  {| readme_md := Some (repeat 97%N 1000);
     architecture_md := Some (lit "architecture notes");
     glossary_md := Some (lit "glossary notes");
     listdir := fun _ _ => None;
     strftime_now := lit "2024-01-01 00:00:00";
     unicode_capitalize := fun s => s |}.

(** An entity dictionary with the three required fields. *)
Definition complete (entity : dict) : Prop :=
  is_Some (entity !! lit "name") /\ is_Some (entity !! lit "entityType")
  /\ is_Some (entity !! lit "observations").

#[global] Instance complete_dec (entity : dict) : Decision (complete entity) :=
  and_dec _ (and_dec _ _).


(** A section opened by a heading line: its content starts with that line
    and its title is the text after the marker, stripped. *)
Definition headed (s : section) : Prop :=
  exists line body,
    content s = line ++ [NL] ++ body
    /\ startswith line (lit "## ") = true
    /\ title s = strip (drop 3 line).

(** The heading lines of a text. *)
Definition heading_lines (text : str) : list str :=
  filter (fun line => startswith line (lit "## ") = true) (split_lines text).

(** The token estimates of a list of sections, summed. *)
Fixpoint tokens_of (l : list section) : Z :=
  match l with
  | [] => 0
  | s :: l' => estimate_tokens (content s) + tokens_of l'
  end.

(** What the section path may write for a budget: the first [k] sections of
    the order whole, their estimates within the budget, then nothing more or
    the next section cut to four characters per token left, with the marker. *)
Definition charged (budget : Z) (ordered : list section) (out : str) : Prop :=
  exists k,
    (k <= length ordered)%nat
    /\ tokens_of (take k ordered) <= budget
    /\ (out = concat (map content (take k ordered))
        \/ exists s,
             ordered !! k = Some s
             /\ budget - tokens_of (take k ordered) < estimate_tokens (content s)
             /\ out = concat (map content (take k ordered))
                      ++ take (Z.to_nat (4 * (budget - tokens_of (take k ordered))))
                              (content s)
                      ++ SECTION_MARKER).

(** The state between two passes, with the budget accounted for. *)
Definition charged_inv (budget : Z) (ordered : list section) (st : str * Z) : Prop :=
  (st.1 = concat (map content ordered)
   /\ st.2 = budget - tokens_of ordered /\ 0 <= st.2)
  \/ (st.2 <= 0 /\ charged budget ordered st.1).

(** A computation that leaves every entry but that of [l] as it was,
    whether it returns or raises. *)
Definition frames {A} (l : level) (m : M A) : Prop :=
  forall t l', l' <> l -> entry (m t).2 l' = entry t l'.

(** The tables after the calls with the ceilings 1 and 0: the "standard"
    entry is 0 everywhere. *)
Definition drained_tables : tables :=
  (load_project_context sample_world (lit "standard") None 0
     (load_project_context sample_world (lit "standard") None 1
        DEFAULT_TOKEN_BUDGETS).2).2.

(** The document assembled from a store without documents and snapshots. *)
Definition empty_store_context (now : str) : str :=
  lit "# Notes Manager 2 Project Context" ++ [NL; NL]
    ++ lit "*Context loaded at " ++ now ++ lit "*" ++ [NL; NL]
    ++ lit "## Project Overview" ++ [NL; NL] ++ lit "README not found" ++ [NL; NL]
    ++ lit "## Architecture" ++ [NL; NL]
    ++ lit "Architecture document not found" ++ [NL; NL]
    ++ lit "## Glossary" ++ [NL; NL] ++ lit "Glossary not found" ++ [NL; NL]
    ++ lit "# Project Snapshots" ++ [NL; NL].

(** A store without any document or snapshot directory. *)
Definition empty_world : world :=
  {| readme_md := None; architecture_md := None; glossary_md := None;
     listdir := fun _ _ => None;
     strftime_now := lit "2024-01-01 00:00:00";
     unicode_capitalize := fun s => s |}.

(** A snapshot directory with three snapshots and another file. *)
Definition snapshot_world : world :=
  {| readme_md := None; architecture_md := None; glossary_md := None;
     listdir := fun snapshot_type hierarchy_level =>
       if str_eqb snapshot_type (lit "general")
          && str_eqb hierarchy_level (lit "standard")
       then Some [File (lit "monday.md") 10 (lit "old");
                  File (lit "notes.txt") 99 (lit "not a snapshot");
                  File (lit "tuesday.md") 20 (lit "new");
                  File (lit "copy.md") 20 (lit "same time")]
       else None;
     strftime_now := lit "2024-01-01 00:00:00";
     unicode_capitalize := fun s => s |}.

(** Ascending order of the keys. *)
Fixpoint ascending {A} (key : A -> Z) (l : list A) : Prop :=
  match l with
  | [] => True
  | x :: l' => Forall (fun y => key x <= key y) l' /\ ascending key l'
  end.

(** The tables after [n] successive calls with the same arguments. *)
Fixpoint after_calls (w : world) (detail_level : str) (focus_area : option str)
    (max_tokens : Z) (n : nat) (t : tables) : tables :=
  match n with
  | O => t
  | S n' =>
      after_calls w detail_level focus_area max_tokens n'
        (load_project_context w detail_level focus_area max_tokens t).2
  end.

(** A relationship dictionary with the three required fields. *)
Definition linked (relationship : dict) : Prop :=
  is_Some (relationship !! lit "from") /\ is_Some (relationship !! lit "to")
  /\ is_Some (relationship !! lit "relationType").

#[global] Instance linked_dec (relationship : dict) : Decision (linked relationship) :=
  and_dec _ (and_dec _ _).


(** The response of a successful import. *)
Definition imported (entities relationships : Z) : dict :=
  <[lit "success" := VBool true]>
    (<[lit "entities_imported" := VInt entities]>
       (<[lit "relationships_imported" := VInt relationships]>
          (<[lit "message" := VStr (lit "Graph snapshot imported successfully")]> ∅))).

(** What is left of the budget when the first [i] sections of the order
    have been written whole. *)
Definition left_at (budget : Z) (ordered : list section) (i : nat) : Z :=
  budget - tokens_of (take i ordered).

(** Position [i] is where the second or the third pass starts ([b1] and
    [b2]) and nothing is left for it: the guard [remaining_budget > 0]
    fails. *)
Definition pass_closed (b1 b2 : nat) (budget : Z) (ordered : list section)
    (i : nat) : Prop :=
  (i = b1 \/ i = b2) /\ left_at budget ordered i <= 0.

(** Every section before position [k] was reached by its pass and fitted
    into what was left. *)
Definition whole_before (b1 b2 : nat) (budget : Z) (ordered : list section)
    (k : nat) : Prop :=
  forall i s, (i < k)%nat -> ordered !! i = Some s ->
    estimate_tokens (content s) <= left_at budget ordered i
    /\ ~ pass_closed b1 b2 budget ordered i.

(** The passes stopped at section [k]: its pass was not entered, or the
    section did not fit and was cut to four characters per token left. *)
Definition stopped_at (b1 b2 : nat) (budget : Z) (ordered : list section)
    (k : nat) (out : str) : Prop :=
  whole_before b1 b2 budget ordered k
  /\ (((k < length ordered)%nat /\ pass_closed b1 b2 budget ordered k
       /\ out = concat (map content (take k ordered)))
      \/ exists s,
           ordered !! k = Some s
           /\ ~ pass_closed b1 b2 budget ordered k
           /\ left_at budget ordered k < estimate_tokens (content s)
           /\ out = concat (map content (take k ordered))
                    ++ slice_to (content s) (left_at budget ordered k * 4)
                    ++ SECTION_MARKER).

(** The state after the passes over [done], a prefix of the order: all of
    it was written whole, or the passes have stopped and the budget is 0 or
    less. *)
Definition pass_state (b1 b2 : nat) (budget : Z) (ordered done : list section)
    (st : str * Z) : Prop :=
  (st.1 = concat (map content done) /\ st.2 = budget - tokens_of done
   /\ whole_before b1 b2 budget ordered (length done))
  \/ (st.2 <= 0 /\ exists k, stopped_at b1 b2 budget ordered k st.1).

(** The walk over the order that the three passes make: whole sections up
    to position [k], where it ends after the last section, or where a pass is
    not entered, or at a section that does not fit. *)
Definition walked (b1 b2 : nat) (budget : Z) (ordered : list section)
    (out : str) : Prop :=
  exists k,
    whole_before b1 b2 budget ordered k
    /\ ((k = length ordered /\ out = concat (map content ordered))
        \/ ((k < length ordered)%nat /\ pass_closed b1 b2 budget ordered k
            /\ out = concat (map content (take k ordered)))
        \/ exists s,
             ordered !! k = Some s
             /\ ~ pass_closed b1 b2 budget ordered k
             /\ left_at budget ordered k < estimate_tokens (content s)
             /\ out = concat (map content (take k ordered))
                      ++ slice_to (content s) (left_at budget ordered k * 4)
                      ++ SECTION_MARKER).

(** A document whose three sections all fit a budget of 5, which its own
    estimate (6) exceeds. *)
Definition shuffled_text : str :=
  lit "prefix" ++ [NL] ++ lit "## N" ++ [NL] ++ lit "b" ++ [NL]
    ++ lit "## X" ++ [NL] ++ lit "body xy".

(** The tables after 58 calls with the focus area "general" and a ceiling
    that never caps: the readme allowance of the "standard" entry has been
    doubled 58 times, to 1000 * 2^58. *)
Definition grown_tables : tables :=
  after_calls sample_world (lit "standard") (Some (lit "general")) (10 ^ 30) 58
              DEFAULT_TOKEN_BUDGETS.

(* ===================================================================== *)
(** * Binary64 facts *)
(* ===================================================================== *)

Section Binary64.

Ltac stdz :=
  change IntDef.Z.sub with Z.sub in *; change IntDef.Z.add with Z.add in *;
  change IntDef.Z.max with Z.max in *; change IntDef.Z.min with Z.min in *;
  change IntDef.Z.leb with Z.leb in *; change IntDef.Z.eqb with Z.eqb in *;
  change IntDef.Z.compare with Z.compare in *;
  change IntDef.Z.opp with Z.opp in *.

Lemma digits2_size p : digits2_pos p = Pos.size p.
Proof. induction p; simpl; congruence. Qed.

Lemma size_bounds p : 2 ^ (Z.pos (Pos.size p) - 1) <= Z.pos p < 2 ^ Z.pos (Pos.size p).
Proof.
  induction p as [p IH|p IH|]; simpl Pos.size.
  - rewrite Pos2Z.inj_succ.
    replace (Z.succ (Z.pos (Pos.size p)) - 1) with (Z.succ (Z.pos (Pos.size p) - 1)) by lia.
    rewrite !Z.pow_succ_r by lia. lia.
  - rewrite Pos2Z.inj_succ.
    replace (Z.succ (Z.pos (Pos.size p)) - 1) with (Z.succ (Z.pos (Pos.size p) - 1)) by lia.
    rewrite !Z.pow_succ_r by lia. lia.
  - simpl. lia.
Qed.

Lemma size_iter_xO d p : Pos.size (Pos.iter xO p d) = (Pos.size p + d)%positive.
Proof.
  revert p. induction d using Pos.peano_ind; intros p.
  - simpl. lia.
  - rewrite Pos.iter_succ. simpl. rewrite IHd. lia.
Qed.

Lemma iter_xO_mul d p : Z.pos (Pos.iter xO p d) = Z.pos p * 2 ^ Z.pos d.
Proof.
  revert p. induction d using Pos.peano_ind; intros p.
  - simpl. lia.
  - rewrite Pos.iter_succ, Pos2Z.inj_succ, Z.pow_succ_r by lia.
    rewrite Pos2Z.inj_xO, IHd. lia.
Qed.

(** A mantissa of 53 digits with an exponent in range is kept as it is. *)
Lemma binary_round_aux_exact s m e :
  Pos.size m = 53%positive -> -1074 <= e <= 971 ->
  binary_round_aux prec emax s (Z.pos m) e loc_Exact = S754_finite s m e.
Proof.
  intros Hm He. unfold binary_round_aux, shr_fexp. simpl Zdigits2.
  rewrite digits2_size, Hm. stdz.
  assert (Hf : fexp prec emax (53 + e) - e = 0).
  { unfold fexp, SpecFloat.emin, prec, emax. lia. }
  rewrite Hf. cbn -[Z.add Z.sub Z.leb fexp].
  rewrite digits2_size, Hm. stdz. rewrite Hf. cbn -[Z.add Z.sub Z.leb fexp].
  destruct (Z.leb_spec e (emax - prec)); [reflexivity|unfold emax, prec in *; lia].
Qed.

(** The float of an integer of at most 53 digits: the integer itself, with
    its mantissa shifted to 53 digits. *)
Lemma binary_normalize_small K :
  0 < K < 2 ^ 53 ->
  exists m e, binary_normalize prec emax K 0 false = S754_finite false m e
              /\ Pos.size m = 53%positive /\ -52 <= e <= 0
              /\ Z.pos m = K * 2 ^ (- e).
Proof.
  intros HK. destruct K as [|p|p]; try lia.
  pose proof (size_bounds p) as Hp.
  assert (Hsz : Z.pos (Pos.size p) <= 53).
  { destruct (Z.le_gt_cases (Z.pos (Pos.size p)) 53) as [H|H]; [exact H|].
    assert (2 ^ 53 <= 2 ^ (Z.pos (Pos.size p) - 1)) by (apply Z.pow_le_mono_r; lia).
    lia. }
  unfold binary_normalize, binary_round.
  rewrite digits2_size. stdz.
  assert (Hf : fexp prec emax (Z.pos (Pos.size p) + 0) = Z.pos (Pos.size p) - 53).
  { unfold fexp, SpecFloat.emin, prec, emax. lia. }
  rewrite Hf. unfold shl_align. stdz.
  destruct (Z.pos (Pos.size p) - 53 - 0) as [|d|d] eqn:Hd; try lia.
  - exists p, 0. rewrite binary_round_aux_exact by lia.
    repeat split; lia.
  - exists (Pos.iter xO p d), (Z.pos (Pos.size p) - 53).
    assert (Hs : Pos.size (Pos.iter xO p d) = 53%positive)
      by (rewrite size_iter_xO; lia).
    rewrite binary_round_aux_exact by (try exact Hs; lia).
    repeat split; try lia.
    rewrite iter_xO_mul. f_equal. f_equal. lia.
Qed.

Lemma valid_size s m e :
  valid_binary prec emax (S754_finite s m e) = true -> Z.pos (Pos.size m) <= 53.
Proof.
  unfold valid_binary, bounded, canonical_mantissa. rewrite digits2_size.
  intros H. stdz. apply andb_prop in H as [H _]. apply Z.eqb_eq in H.
  unfold fexp, prec in H. lia.
Qed.

(** A valid float that is at least 0 and below the integer [K] truncates to
    an integer below [K]. *)
Lemma int_of_float_below x K :
  valid_binary prec emax x = true ->
  0 < K < 2 ^ 53 ->
  SFleb (S754_zero false) x = true ->
  SFltb x (binary_normalize prec emax K 0 false) = true ->
  exists r, int_of_float x = Ok r /\ 0 <= r < K.
Proof.
  intros Hv HK Hpos Hlt.
  destruct (binary_normalize_small K HK) as (mK & eK & HbK & HmK & HeK & HK').
  rewrite HbK in Hlt. clear HbK.
  destruct x as [s|s| |s m e].
  - exists 0. simpl. split; [reflexivity|lia].
  - destruct s; simpl in *; discriminate.
  - simpl in *; discriminate.
  - destruct s; [simpl in Hpos; discriminate|].
    pose proof (valid_size _ _ _ Hv) as Hsz.
    pose proof (size_bounds m) as Hm. pose proof (size_bounds mK) as HmK'.
    rewrite HmK in HmK'.
    assert (Hm53 : Z.pos m < 2 ^ 53).
    { apply Z.lt_le_trans with (2 ^ Z.pos (Pos.size m)); [lia|].
      apply Z.pow_le_mono_r; lia. }
    unfold SFltb, SFcompare in Hlt. stdz.
    simpl int_of_float.
    eexists. split; [reflexivity|].
    destruct (e ?= eK) eqn:Hc; try discriminate.
    + apply Z.compare_eq in Hc. subst e.
      assert (Hmm : Z.pos m < Z.pos mK).
      { destruct (PosDef.Pos.compare_cont Eq m mK) eqn:Hcc; try discriminate.
        assert (Hpl : (m < mK)%positive) by exact Hcc. lia. }
      destruct (Z.leb_spec 0 eK).
      * assert (eK = 0) by lia. subst eK. rewrite Z.shiftl_0_r.
        simpl in HK'. lia.
      * rewrite Z.shiftr_div_pow2 by lia. split.
        -- apply Z.div_pos; [lia|]. apply Z.pow_pos_nonneg; lia.
        -- apply Z.div_lt_upper_bound; [apply Z.pow_pos_nonneg; lia|]. lia.
    + rewrite Z.compare_lt_iff in Hc.
      destruct (Z.leb_spec 0 e); [lia|].
      rewrite Z.shiftr_div_pow2 by lia. split.
      * apply Z.div_pos; [lia|]. apply Z.pow_pos_nonneg; lia.
      * apply Z.div_lt_upper_bound; [apply Z.pow_pos_nonneg; lia|].
        replace (- e) with (- eK + (eK - e)) by lia.
        rewrite Z.pow_add_r by lia.
        assert (2 ^ 1 <= 2 ^ (eK - e)) by (apply Z.pow_le_mono_r; lia).
        change (2 ^ 1) with 2 in *.
        assert (0 < 2 ^ (- eK)) by (apply Z.pow_pos_nonneg; lia).
        change (2 ^ (53 - 1)) with (2 ^ 52) in HmK'.
        nia.
Qed.

End Binary64.

(* ===================================================================== *)
(** * Budget allocation *)
(* ===================================================================== *)

Section Allocation.

Lemma values_sum_eq b : values_sum b = component_sum b + total b.
Proof. unfold values_sum, component_sum; simpl; lia. Qed.

Lemma focus_boost_boost l focus_area :
  focus_boost l focus_area = boost l (boosted_key focus_area).
Proof.
  unfold focus_boost, boosted_key.
  destruct focus_area as [[|c focus]|]; try reflexivity.
  repeat (match goal with |- context [if ?b then _ else _] => destruct b end;
          try reflexivity).
Qed.

Lemma boosted_key_cases focus_area :
  boosted_key focus_area ∈ [None; Some Readme; Some Architecture; Some Snapshots].
Proof.
  unfold boosted_key.
  destruct focus_area as [[|c focus]|]; try set_solver.
  repeat (match goal with |- context [if ?b then _ else _] => destruct b end;
          try set_solver).
Qed.

Lemma adjust_budgets_run detail_level focus_area max_tokens t :
  adjust_budgets detail_level focus_area max_tokens t =
  match boost (resolve detail_level) (boosted_key focus_area) t with
  | (Ok _, t1) =>
      match cap_budgets (resolve detail_level) max_tokens t1 with
      | (Ok _, t2) => (Ok (resolve detail_level), t2)
      | (Raise e, t2) => (Raise e, t2)
      end
  | (Raise e, t1) => (Raise e, t1)
  end.
Proof.
  unfold adjust_budgets. rewrite focus_boost_boost.
  unfold mbind, M_bind, bind.
  destruct (boost _ _ t) as [[u|e] t1]; [|reflexivity].
  destruct (cap_budgets _ _ t1) as [[u'|e] t2]; reflexivity.
Qed.

(** Without scaling the capping step changes nothing. *)
Lemma cap_budgets_noop l max_tokens t :
  values_sum (entry t l) <= max_tokens ->
  cap_budgets l max_tokens t = (Ok tt, t).
Proof.
  intros H. unfold cap_budgets, values, mbind, M_bind, bind.
  fold (values_sum (entry t l)).
  destruct (Z.gtb_spec (values_sum (entry t l)) max_tokens); [lia|reflexivity].
Qed.

Lemma scale_key_run l k f t :
  scale_key l k f t
  = match scaled (get (entry t l) k) f with
    | Ok n => (Ok tt, set_entry t l (set (entry t l) k n))
    | Raise e => (Raise e, t)
    end.
Proof.
  unfold scale_key, scaled, read, write, lift, mbind, M_bind, bind.
  destruct (int_mul_float (get (entry t l) k) f) as [p|e]; [|reflexivity].
  destruct (int_of_float p); reflexivity.
Qed.

Lemma entry_set_entry t l b : entry (set_entry t l b) l = b.
Proof. destruct l; reflexivity. Qed.

Lemma set_entry_twice t l b b' : set_entry (set_entry t l b) l b' = set_entry t l b'.
Proof. destruct l; reflexivity. Qed.

(** The capping step when it scales. *)
Lemma cap_budgets_scaled l max_tokens t s r1 r2 r3 r4 :
  max_tokens < values_sum (entry t l) ->
  true_div max_tokens (values_sum (entry t l)) = Ok s ->
  scaled (readme (entry t l)) s = Ok r1 ->
  scaled (architecture (entry t l)) s = Ok r2 ->
  scaled (glossary (entry t l)) s = Ok r3 ->
  scaled (snapshots (entry t l)) s = Ok r4 ->
  cap_budgets l max_tokens t
  = (Ok tt, set_entry t l (Budgets r1 r2 r3 r4 max_tokens)).
Proof.
  intros Hlt Hdiv H1 H2 H3 H4.
  unfold cap_budgets, values, mbind, M_bind, bind.
  fold (values_sum (entry t l)).
  destruct (Z.gtb_spec (values_sum (entry t l)) max_tokens) as [_|]; [|lia].
  unfold lift. rewrite Hdiv.
  unfold keys, for_each, mbind, M_bind, bind, ret. cbn [negb key_eqb].
  rewrite scale_key_run. cbn [get]. rewrite H1.
  rewrite scale_key_run, entry_set_entry. cbn [get set architecture]. rewrite H2.
  rewrite scale_key_run, entry_set_entry. cbn [get set glossary]. rewrite H3.
  rewrite scale_key_run, entry_set_entry. cbn [get set snapshots]. rewrite H4.
  unfold write. rewrite ?set_entry_twice, ?entry_set_entry.
  cbn [set readme architecture glossary snapshots total].
  rewrite ?set_entry_twice. reflexivity.
Qed.

Section Hardware.

Import PrimInt63.
#[local] Open Scope Z_scope.

Abbreviation to_Z := Uint63Axioms.to_Z.
Abbreviation Prim2SF := FloatOps.Prim2SF.

Lemma to_Z_succ (k : int) :
  to_Z k < 2 ^ 62 -> to_Z (PrimInt63.add k 1%uint63) = to_Z k + 1.
Proof.
  intros Hk. rewrite Uint63.add_spec. change (to_Z 1%uint63) with 1.
  pose proof (Uint63.to_Z_bounded k) as Hb.
  apply Z.mod_small. change Uint63.wB with (2 ^ 63) in *. lia.
Qed.

Lemma to_Z_of_Z (z : Z) : 0 <= z < 2 ^ 53 -> to_Z (Uint63.of_Z z) = z.
Proof.
  intros Hz. rewrite Uint63.of_Z_spec. apply Z.mod_small.
  change Uint63.wB with (2 ^ 63). lia.
Qed.

(** The conversion of a small integer, by the hardware. *)
Lemma float_of_int_prim (c : Z) :
  0 <= c < 2 ^ 53 ->
  float_of_int c = Ok (Prim2SF (PrimFloat.of_uint63 (Uint63.of_Z c)))
  /\ Prim2SF (PrimFloat.of_uint63 (Uint63.of_Z c))
     = binary_normalize prec emax c 0 false.
Proof.
  intros Hc. rewrite FloatAxioms.of_uint63_spec, to_Z_of_Z by exact Hc.
  split; [|reflexivity]. unfold float_of_int.
  destruct (Z.eq_dec c 0) as [->|Hne]; [reflexivity|].
  destruct (binary_normalize_small c) as (m & e & Hb & _); [lia|].
  change FloatOps.prec with prec. change FloatOps.emax with emax.
  rewrite Hb. reflexivity.
Qed.

(** The quotient of two small positive integers, by the hardware division. *)
Lemma true_div_prim (mu : int) (S : Z) (fS : PrimFloat.float) :
  0 < to_Z mu < 2 ^ 53 -> 0 < S < 2 ^ 53 ->
  Prim2SF fS = binary_normalize prec emax S 0 false ->
  PrimFloat.leb PrimFloat.zero (PrimFloat.div (PrimFloat.of_uint63 mu) fS) = true ->
  PrimFloat.leb (PrimFloat.div (PrimFloat.of_uint63 mu) fS) PrimFloat.one = true ->
  true_div (to_Z mu) S = Ok (Prim2SF (PrimFloat.div (PrimFloat.of_uint63 mu) fS)).
Proof.
  intros Hm HS HfS Hge Hle. unfold true_div.
  destruct (Z.eqb_spec S 0); [lia|]. destruct (Z.eqb_spec (to_Z mu) 0); [lia|].
  change 9007199254740992 with (2 ^ 53).
  destruct (Z.ltb_spec (Z.abs (to_Z mu)) (2 ^ 53)); [|lia].
  destruct (Z.ltb_spec (Z.abs S) (2 ^ 53)); [|lia].
  cbn [andb].
  pose proof (FloatAxioms.div_spec (PrimFloat.of_uint63 mu) fS) as Hdiv.
  rewrite FloatAxioms.of_uint63_spec, HfS in Hdiv.
  change (FloatAxioms.SF64div ?a ?b) with (SFdiv prec emax a b) in Hdiv.
  change FloatOps.prec with prec in Hdiv. change FloatOps.emax with emax in Hdiv.
  rewrite <- Hdiv.
  rewrite FloatAxioms.leb_spec in Hge, Hle.
  destruct (FloatOps.Prim2SF (PrimFloat.div (PrimFloat.of_uint63 mu) fS))
    as [sg|sg| |sg m e]; try reflexivity.
  destruct sg; [vm_compute in Hge|vm_compute in Hle]; discriminate.
Qed.

(** A product that the hardware finds at least 0 and below [k + 1]
    truncates to at most [k]. *)
Lemma scaled_prim (c : Z) (fc q : PrimFloat.float) (ku : int) :
  float_of_int c = Ok (Prim2SF fc) ->
  to_Z ku < 2 ^ 52 ->
  PrimFloat.leb PrimFloat.zero (PrimFloat.mul fc q) = true ->
  PrimFloat.ltb (PrimFloat.mul fc q)
                (PrimFloat.of_uint63 (PrimInt63.add ku 1%uint63)) = true ->
  exists r, scaled c (Prim2SF q) = Ok r /\ 0 <= r <= to_Z ku.
Proof.
  intros Hc Hk Hge Hlt. unfold scaled, int_mul_float. rewrite Hc.
  pose proof (FloatAxioms.mul_spec fc q) as Hmul.
  change (FloatAxioms.SF64mul ?a ?b) with (SFmul prec emax a b) in Hmul.
  rewrite <- Hmul.
  rewrite FloatAxioms.leb_spec in Hge.
  rewrite FloatAxioms.ltb_spec, FloatAxioms.of_uint63_spec in Hlt.
  pose proof (Uint63.to_Z_bounded ku) as Hb.
  rewrite to_Z_succ in Hlt by lia.
  destruct (int_of_float_below (Prim2SF (PrimFloat.mul fc q)) (to_Z ku + 1))
    as (r & Hr & Hrange).
  - apply FloatAxioms.Prim2SF_valid.
  - lia.
  - exact Hge.
  - exact Hlt.
  - exists r. split; [exact Hr|lia].
Qed.

Lemma check_scaled_sound (c : Z) (q : PrimFloat.float) (mu Su ku : int) :
  0 <= c < 2 ^ 52 ->
  Hardware.check_scaled (PrimFloat.of_uint63 (Uint63.of_Z c)) q
                        (Uint63.of_Z c) mu Su = Some ku ->
  to_Z ku < 2 ^ 52
  /\ exists r, scaled c (Prim2SF q) = Ok r /\ 0 <= r <= to_Z ku.
Proof.
  intros Hc. unfold Hardware.check_scaled.
  set (k := PrimInt63.div (PrimInt63.mul (Uint63.of_Z c) mu) Su).
  destruct (PrimInt63.ltb k 4503599627370496%uint63) eqn:Hk; [|discriminate].
  destruct (PrimFloat.leb _ _) eqn:Hge; [|discriminate].
  destruct (PrimFloat.ltb _ _) eqn:Hlt; [|discriminate].
  simpl. intros [= <-].
  apply Uint63.ltb_spec in Hk.
  change (to_Z 4503599627370496%uint63) with (2 ^ 52) in Hk.
  split; [exact Hk|].
  apply (scaled_prim c (PrimFloat.of_uint63 (Uint63.of_Z c)) q k); try assumption.
  apply float_of_int_prim. lia.
Qed.

Lemma in_range_spec b :
  Hardware.in_range b = true ->
  (0 <= readme b < 2 ^ 52) /\ (0 <= architecture b < 2 ^ 52)
  /\ (0 <= glossary b < 2 ^ 52) /\ (0 <= snapshots b < 2 ^ 52)
  /\ 0 <= total b /\ values_sum b < 2 ^ 53.
Proof.
  unfold Hardware.in_range. rewrite !andb_true_iff.
  rewrite !Z.leb_le, !Z.ltb_lt. tauto.
Qed.

(** What the evaluation establishes about the code. *)
Lemma cap_check_sound (b : budgets) (mu : int) :
  Hardware.in_range b = true ->
  0 < to_Z mu < values_sum b ->
  Hardware.cap_check b mu = true ->
  exists s r1 r2 r3 r4,
    true_div (to_Z mu) (values_sum b) = Ok s
    /\ scaled (readme b) s = Ok r1 /\ scaled (architecture b) s = Ok r2
    /\ scaled (glossary b) s = Ok r3 /\ scaled (snapshots b) s = Ok r4
    /\ r1 + r2 + r3 + r4 <= to_Z mu.
Proof.
  intros Hrange Hmu Hcheck.
  apply in_range_spec in Hrange as (H1 & H2 & H3 & H4 & Ht & HS).
  unfold Hardware.cap_check in Hcheck. cbv zeta in Hcheck.
  set (q := PrimFloat.div (PrimFloat.of_uint63 mu)
              (PrimFloat.of_uint63 (Uint63.of_Z (values_sum b)))) in *.
  apply andb_prop in Hcheck as [Hq Hcheck]. apply andb_prop in Hq as [Hq0 Hq1].
  destruct (Hardware.check_scaled _ q (Uint63.of_Z (readme b)) mu _)
    as [k1|] eqn:E1; [|discriminate].
  destruct (Hardware.check_scaled _ q (Uint63.of_Z (architecture b)) mu _)
    as [k2|] eqn:E2; [|discriminate].
  destruct (Hardware.check_scaled _ q (Uint63.of_Z (glossary b)) mu _)
    as [k3|] eqn:E3; [|discriminate].
  destruct (Hardware.check_scaled _ q (Uint63.of_Z (snapshots b)) mu _)
    as [k4|] eqn:E4; [|discriminate].
  apply check_scaled_sound in E1 as (B1 & r1 & S1 & R1); [|exact H1].
  apply check_scaled_sound in E2 as (B2 & r2 & S2 & R2); [|exact H2].
  apply check_scaled_sound in E3 as (B3 & r3 & S3 & R3); [|exact H3].
  apply check_scaled_sound in E4 as (B4 & r4 & S4 & R4); [|exact H4].
  exists (Prim2SF q), r1, r2, r3, r4.
  split.
  { apply true_div_prim; try assumption; try lia.
    apply float_of_int_prim. lia. }
  repeat (split; [assumption|]).
  apply Uint63.leb_spec in Hcheck.
  pose proof (Uint63.to_Z_bounded k1). pose proof (Uint63.to_Z_bounded k2).
  pose proof (Uint63.to_Z_bounded k3). pose proof (Uint63.to_Z_bounded k4).
  change Uint63.wB with (2 ^ 63) in *.
  rewrite !Uint63.add_spec in Hcheck. change Uint63.wB with (2 ^ 63) in Hcheck.
  rewrite (Z.mod_small (to_Z k1 + to_Z k2)) in Hcheck by lia.
  rewrite (Z.mod_small (to_Z k1 + to_Z k2 + to_Z k3)) in Hcheck by lia.
  rewrite Z.mod_small in Hcheck by lia.
  lia.
Qed.

Lemma all_from_spec n : forall mu p,
  Hardware.all_from n mu p = true ->
  to_Z mu + Z.of_nat n < 2 ^ 62 ->
  forall x, to_Z mu <= x < to_Z mu + Z.of_nat n ->
            exists xu, to_Z xu = x /\ p xu = true.
Proof.
  induction n as [|n IH]; intros mu p H Hb x Hx; [lia|].
  simpl in H. apply andb_prop in H as [Hmu Hrest].
  pose proof (Uint63.to_Z_bounded mu) as Hmb.
  destruct (Z.eq_dec x (to_Z mu)) as [->|Hne]; [exists mu; auto|].
  apply (IH _ p Hrest); rewrite to_Z_succ by lia; lia.
Qed.

Lemma all_from_one n p :
  Hardware.all_from n 1%uint63 p = true ->
  Z.of_nat n < 2 ^ 61 ->
  forall x, 1 <= x <= Z.of_nat n -> exists xu, to_Z xu = x /\ p xu = true.
Proof.
  intros H Hn x Hx.
  apply (all_from_spec n 1%uint63 p H); change (to_Z 1%uint63) with 1; lia.
Qed.

End Hardware.

Lemma scaled_all_ok :
  forallb (fun l => forallb (Hardware.scaled_ok l) focus_keys)
          [Minimal; Standard; Comprehensive] = true.
Proof. vm_compute. reflexivity. Qed.

Lemma scaled_ok_all l k : k ∈ focus_keys -> Hardware.scaled_ok l k = true.
Proof.
  intros Hk. pose proof scaled_all_ok as H.
  rewrite forallb_forall in H.
  assert (Hl : In l [Minimal; Standard; Comprehensive])
    by (destruct l; simpl; auto).
  specialize (H l Hl). rewrite forallb_forall in H.
  apply H. apply list_elem_of_In. exact Hk.
Qed.

Lemma boost_default l k :
  k ∈ focus_keys ->
  boost l k DEFAULT_TOKEN_BUDGETS = (Ok tt, boosted l k).
Proof.
  intros Hk. unfold focus_keys in Hk.
  repeat (apply elem_of_cons in Hk as [->|Hk]);
    [| | | | apply elem_of_nil in Hk; contradiction];
    destruct l; vm_compute; reflexivity.
Qed.

(** The prologue on the tables of the module, for a positive ceiling. *)
Lemma adjust_budgets_default detail_level focus_area max_tokens :
  0 < max_tokens ->
  exists t',
    adjust_budgets detail_level focus_area max_tokens DEFAULT_TOKEN_BUDGETS
      = (Ok (resolve detail_level), t')
    /\ component_sum (entry t' (resolve detail_level)) <= max_tokens.
Proof.
  intros Hpos. rewrite adjust_budgets_run.
  set (l := resolve detail_level). set (k := boosted_key focus_area).
  assert (Hk : k ∈ focus_keys) by apply boosted_key_cases.
  rewrite (boost_default l k Hk).
  pose proof (scaled_ok_all l k Hk) as Hall. unfold Hardware.scaled_ok in Hall.
  cbv zeta in Hall. apply andb_prop in Hall as [Hrange Hall].
  set (b := entry (boosted l k) l) in *.
  pose proof (in_range_spec b Hrange) as (H1 & H2 & H3 & H4 & Ht & HS).
  destruct (Z_lt_le_dec max_tokens (values_sum b)) as [Hlt|Hge].
  - destruct (all_from_one _ _ Hall) with (x := max_tokens)
      as (mu & Hmu & Hcheck); [lia|lia|].
    destruct (cap_check_sound b mu Hrange) as (s & r1 & r2 & r3 & r4 & Hdiv
                                               & S1 & S2 & S3 & S4 & Hsum);
      [lia|exact Hcheck|].
    rewrite Hmu in Hdiv, Hsum.
    rewrite (cap_budgets_scaled l max_tokens (boosted l k) s r1 r2 r3 r4)
      by assumption.
    eexists. split; [reflexivity|].
    rewrite entry_set_entry. unfold component_sum; simpl; lia.
  - rewrite (cap_budgets_noop l max_tokens _ Hge).
    exists (boosted l k). split; [reflexivity|].
    fold b. rewrite values_sum_eq in Hge. lia.
Qed.

(** The cap on a first call: for every detail level, every focus area (or
    none) and every positive [max_tokens], the prologue of
    [load_project_context], run on the budget tables as the module defines
    them, returns without raising, and the four component allowances of the
    entry it adjusted sum to at most [max_tokens]. *)
Theorem budget_cap_invariant (detail_level : str) (focus_area : option str)
    (max_tokens : Z) :
  0 < max_tokens ->
  exists t',
    adjust_budgets detail_level focus_area max_tokens DEFAULT_TOKEN_BUDGETS
      = (Ok (resolve detail_level), t')
    /\ let b := entry t' (resolve detail_level) in
       readme b + architecture b + glossary b + snapshots b <= max_tokens.
Proof. exact (adjust_budgets_default detail_level focus_area max_tokens). Qed.

Lemma budget_cap_invariant_witness :
  0 < 4000
  /\ exists t',
       adjust_budgets (lit "comprehensive") (Some (lit "agent")) 4000
                      DEFAULT_TOKEN_BUDGETS
         = (Ok (resolve (lit "comprehensive")), t')
       /\ let b := entry t' (resolve (lit "comprehensive")) in
          readme b + architecture b + glossary b + snapshots b <= 4000.
Proof.
  split; [lia|].
  apply (budget_cap_invariant (lit "comprehensive") (Some (lit "agent")) 4000). lia.
Defined.

(** C1. The budget cap fails on the tables that earlier calls have left: the
    prologue writes through to the module's table, so 58 calls with the focus
    area "general" leave a readme allowance of 1000 * 2^58; there the five
    values sum to more than the positive ceiling below, but the quotient of
    the two rounds to 1.0, nothing is scaled down, and the four component
    allowances sum to one more than [max_tokens]. *)
Theorem cap_exceeded_on_grown_tables :
  let max_tokens := 288230376151711750999 in
  0 < max_tokens
  /\ entry grown_tables Standard
     = Budgets 288230376151711744000 2000 1000 4000 8000
  /\ max_tokens < values_sum (entry grown_tables Standard)
  /\ true_div max_tokens (values_sum (entry grown_tables Standard))
     = Ok (S754_finite false 4503599627370496 (-52))
  /\ exists t',
       adjust_budgets (lit "standard") None max_tokens grown_tables
       = (Ok Standard, t')
       /\ entry t' Standard
          = Budgets 288230376151711744000 2000 1000 4000 max_tokens
       /\ component_sum (entry t' Standard) = max_tokens + 1.
Proof.
  cbv zeta. split; [lia|].
  split; [vm_compute; reflexivity|].
  split; [vm_compute; reflexivity|].
  split; [vm_compute; reflexivity|].
  exists (adjust_budgets (lit "standard") None 288230376151711750999 grown_tables).2.
  split; [vm_compute; reflexivity|].
  split; vm_compute; reflexivity.
Qed.

(** The focus boost alone: with an ample ceiling the architecture allowance
    of the "standard" entry is doubled, and nothing is scaled. *)
Example focus_architecture_doubles :
  adjust_budgets (lit "standard") (Some (lit "architecture")) 100000
                 DEFAULT_TOKEN_BUDGETS
  = (Ok Standard,
     {| minimal := Budgets 500 1000 500 1000 3000;
        standard := Budgets 1000 4000 1000 4000 8000;
        comprehensive := Budgets 2000 3000 2000 8000 15000 |}).
Proof. vm_compute. reflexivity. Qed.

(** C2, the code at the inputs of the claim. [sum(token_budgets.values())]
    counts the stored [total] together with the four components, so the
    capping step compares 16000, not 8000, with [max_tokens]: for "standard",
    no focus area and a ceiling of 4000 every component is scaled by 0.25
    (250, 500, 250, 1000), not 0.5, and with the default ceiling of 8000 the
    components are halved although their sum is 8000. *)
Theorem standard_scaled_by_values_sum :
  adjust_budgets (lit "standard") None 4000 DEFAULT_TOKEN_BUDGETS
    = (Ok Standard,
       {| minimal := Budgets 500 1000 500 1000 3000;
          standard := Budgets 250 500 250 1000 4000;
          comprehensive := Budgets 2000 3000 2000 8000 15000 |})
  /\ adjust_budgets (lit "standard") None 8000 DEFAULT_TOKEN_BUDGETS
    = (Ok Standard,
       {| minimal := Budgets 500 1000 500 1000 3000;
          standard := Budgets 500 1000 500 2000 8000;
          comprehensive := Budgets 2000 3000 2000 8000 15000 |})
  /\ component_sum (standard DEFAULT_TOKEN_BUDGETS) = 8000
  /\ values_sum (standard DEFAULT_TOKEN_BUDGETS) = 16000.
Proof. repeat split; vm_compute; reflexivity. Qed.

End Allocation.

(* ===================================================================== *)
(** * Truncation *)
(* ===================================================================== *)

Section Strings.

Lemma length_slice_to (s : str) n : (length (slice_to s n) <= length s)%nat.
Proof. unfold slice_to. destruct (n <? 0); rewrite length_take; lia. Qed.

Lemma slice_to_short (s : str) n : len s <= n -> slice_to s n = s.
Proof.
  unfold slice_to, len. intros H.
  destruct (Z.ltb_spec n 0); [lia|]. apply take_ge. lia.
Qed.

Lemma split_lines_length (text : str) :
  sum_list_with (fun l => S (length l)) (split_lines text) = S (length text).
Proof.
  induction text as [|c r IH]; [reflexivity|].
  simpl. destruct (N.eqb c NL).
  - simpl. rewrite IH. reflexivity.
  - destruct (split_lines r) as [|l ls]; simpl in *; lia.
Qed.

End Strings.

Section Sorting.

Context {A : Type} (key : A -> Z).

Lemma filter_insert_by p x (l : list A) :
  filter (fun s => key s = p) (insert_by key x l)
  = filter (fun s => key s = p) (x :: l).
Proof.
  induction l as [|y l IH]; [reflexivity|].
  simpl. destruct (Z.leb_spec (key x) (key y)) as [Hle|Hlt]; [reflexivity|].
  rewrite (filter_cons _ y), IH, !filter_cons.
  repeat case_decide; try reflexivity; lia.
Qed.

Lemma filter_stable_sort p (l : list A) :
  filter (fun s => key s = p) (stable_sort key l) = filter (fun s => key s = p) l.
Proof.
  induction l as [|x l IH]; [reflexivity|].
  simpl. rewrite filter_insert_by, !filter_cons, IH. reflexivity.
Qed.

(** A stable sort keeps every class of equal keys in its original order,
    also with [reverse=True]. *)
Lemma filter_sort p reverse (l : list A) :
  filter (fun s => key s = p) (sort key reverse l) = filter (fun s => key s = p) l.
Proof.
  unfold sort. destruct reverse.
  - rewrite filter_reverse, filter_stable_sort, filter_reverse.
    apply reverse_involutive.
  - apply filter_stable_sort.
Qed.

End Sorting.

Section Splitter.

Variable preserve : list str.

Lemma split_step_shaped st line :
  shaped preserve (all_sections st) -> shaped preserve (all_sections (split_step preserve st line)).
Proof.
  destruct st as [sections current]. unfold all_sections, split_step. simpl.
  intros (h & rest & Heq & Ht & Hp & Hrest).
  destruct (startswith line (lit "## ")); simpl.
  - exists h, (rest ++ [Section_ (strip (drop 3 line)) (line ++ [NL])
                          (if str_in (strip (drop 3 line)) preserve then 2 else 1)]).
    rewrite Heq. split; [reflexivity|]. split; [assumption|]. split; [assumption|].
    apply Forall_app. split; [assumption|].
    apply Forall_singleton. reflexivity.
  - destruct sections as [|s0 sections]; simpl in *.
    + injection Heq as <- <-.
      exists (Section_ (title current) (content current ++ line ++ [NL])
                       (priority current)), [].
      repeat split; assumption.
    + injection Heq as -> <-.
      apply Forall_app in Hrest as [Hs Hc].
      exists h, (sections ++ [Section_ (title current)
                               (content current ++ line ++ [NL]) (priority current)]).
      repeat split; try assumption.
      apply Forall_app. split; [assumption|].
      apply Forall_singleton. rewrite Forall_singleton in Hc. exact Hc.
Qed.

Lemma split_step_length st line :
  content_length (all_sections (split_step preserve st line))
  = (content_length (all_sections st) + S (length line))%nat.
Proof.
  destruct st as [sections current]. unfold all_sections, split_step, content_length.
  simpl. destruct (startswith line (lit "## ")); simpl;
    rewrite !sum_list_with_app; simpl; rewrite ?length_app; simpl;
    rewrite ?length_app; simpl; lia.
Qed.

Lemma fold_split_step lines : forall st,
  shaped preserve (all_sections st) ->
  shaped preserve (all_sections (fold_left (split_step preserve) lines st))
  /\ content_length (all_sections (fold_left (split_step preserve) lines st))
     = (content_length (all_sections st)
        + sum_list_with (fun l => S (length l)) lines)%nat.
Proof.
  induction lines as [|line lines IH]; intros st Hst; simpl.
  - split; [assumption|lia].
  - destruct (IH _ (split_step_shaped st line Hst)) as [Hs Hl].
    split; [assumption|]. rewrite Hl, split_step_length. lia.
Qed.

Lemma split_sections_all text :
  split_sections text preserve
  = all_sections (fold_left (split_step preserve) (split_lines text)
                            ([], Section_ (lit "Header") [] 0)).
Proof.
  unfold split_sections, all_sections.
  destruct (fold_left _ _ _) as [sections current]. reflexivity.
Qed.

Lemma initial_shaped : shaped preserve (all_sections ([], Section_ (lit "Header") [] 0)).
Proof. exists (Section_ (lit "Header") [] 0), []. repeat split. constructor. Qed.

Lemma split_sections_shaped text : shaped preserve (split_sections text preserve).
Proof.
  rewrite split_sections_all. apply fold_split_step, initial_shaped.
Qed.

(** The section contents are the lines of the text, each with its newline:
    one character more than the text. *)
Lemma split_sections_length text :
  content_length (split_sections text preserve) = S (length text).
Proof.
  rewrite split_sections_all.
  destruct (fold_split_step (split_lines text) _ initial_shaped) as [_ ->].
  rewrite split_lines_length. reflexivity.
Qed.

Lemma classified_priority s : classified preserve s -> priority s = 1 \/ priority s = 2.
Proof. unfold classified. destruct (str_in _ _); auto. Qed.

Lemma shaped_priorities l :
  shaped preserve l -> Forall (fun s => priority s = 0 \/ priority s = 1 \/ priority s = 2) l.
Proof.
  intros (h & rest & -> & _ & Hp & Hrest). constructor; [auto|].
  eapply Forall_impl; [exact Hrest|].
  intros s Hs. destruct (classified_priority s Hs); auto.
Qed.

End Splitter.

Section Emission.

Lemma content_length_app l1 l2 :
  content_length (l1 ++ l2) = (content_length l1 + content_length l2)%nat.
Proof. apply sum_list_with_app. Qed.

Lemma length_concat_contents (l : list section) :
  length (concat (map content l)) = content_length l.
Proof.
  induction l as [|s l IH]; [reflexivity|].
  simpl. rewrite length_app, IH. reflexivity.
Qed.

Lemma concat_contents_app (l1 l2 : list section) :
  concat (map content (l1 ++ l2)) = concat (map content l1) ++ concat (map content l2).
Proof. rewrite map_app, concat_app. reflexivity. Qed.

(** One pass either writes its whole bucket or stops in it with the marker
    and a budget of 0. *)
Lemma emit_spec bucket : forall result remaining,
  (emit bucket result remaining).1 = result ++ concat (map content bucket)
  \/ ((emit bucket result remaining).2 = 0
      /\ exists k s n,
           bucket !! k = Some s
           /\ (emit bucket result remaining).1
              = result ++ concat (map content (take k bucket))
                  ++ slice_to (content s) n ++ SECTION_MARKER).
Proof.
  induction bucket as [|s bucket IH]; intros result remaining; simpl.
  - left. rewrite app_nil_r. reflexivity.
  - destruct (estimate_tokens (content s) <=? remaining).
    + destruct (IH (result ++ content s) (remaining - estimate_tokens (content s)))
        as [Hall | [Hz (k & s' & n & Hk & Hout)]].
      * left. rewrite Hall, <- app_assoc. reflexivity.
      * right. split; [assumption|].
        exists (S k), s', n. split; [assumption|].
        rewrite Hout. simpl. rewrite <- !app_assoc. reflexivity.
    + right. simpl. split; [reflexivity|].
      exists 0%nat, s, (remaining * 4). split; reflexivity.
Qed.

Lemma emit_extends bucket : forall result remaining,
  exists rest, (emit bucket result remaining).1 = result ++ rest.
Proof.
  induction bucket as [|s bucket IH]; intros result remaining; simpl.
  - exists []. rewrite app_nil_r. reflexivity.
  - destruct (estimate_tokens (content s) <=? remaining).
    + destruct (IH (result ++ content s) (remaining - estimate_tokens (content s)))
        as [rest ->].
      exists (content s ++ rest). rewrite app_assoc. reflexivity.
    + eexists. reflexivity.
Qed.

Lemma guarded_emit_extends bucket st :
  exists rest, (guarded_emit bucket st).1 = st.1 ++ rest.
Proof.
  unfold guarded_emit. destruct (st.2 >? 0).
  - apply emit_extends.
  - exists []. rewrite app_nil_r. reflexivity.
Qed.

Lemma emitted_app ordered bucket out :
  emitted ordered out -> emitted (ordered ++ bucket) out.
Proof.
  intros (k & tail & Hk & Hout & Htail).
  exists k, tail. split; [rewrite length_app; lia|].
  split; [rewrite take_app_le by exact Hk; exact Hout|].
  destruct Htail as [->|(s & n & Hs & ->)]; [left; reflexivity|].
  right. exists s, n. split; [|reflexivity].
  apply lookup_app_l_Some. exact Hs.
Qed.

Lemma emitted_all ordered : emitted ordered (concat (map content ordered)).
Proof.
  exists (length ordered), []. split; [lia|].
  rewrite take_ge by lia. rewrite app_nil_r. auto.
Qed.

Lemma pass_inv_emit ordered bucket result remaining :
  result = concat (map content ordered) ->
  pass_inv (ordered ++ bucket) (emit bucket result remaining).
Proof.
  intros ->.
  destruct (emit_spec bucket (concat (map content ordered)) remaining)
    as [Hall | [Hz (k & s & n & Hk & Hout)]].
  - left. rewrite Hall, concat_contents_app. reflexivity.
  - right. split; [lia|].
    exists (length ordered + k)%nat, (slice_to (content s) n ++ SECTION_MARKER).
    pose proof (lookup_lt_Some _ _ _ Hk) as Hlt.
    split; [rewrite length_app; lia|]. split.
    + rewrite Hout, take_app_add, concat_contents_app, <- app_assoc. reflexivity.
    + right. exists s, n. split; [|reflexivity].
      rewrite lookup_app_r by lia.
      replace (length ordered + k - length ordered)%nat with k by lia. exact Hk.
Qed.

Lemma pass_inv_guarded ordered bucket st :
  pass_inv ordered st -> pass_inv (ordered ++ bucket) (guarded_emit bucket st).
Proof.
  intros Hinv. unfold guarded_emit.
  destruct (Z.gtb_spec st.2 0) as [Hpos|Hle].
  - destruct Hinv as [Hall|[Hz _]]; [|lia].
    apply pass_inv_emit. exact Hall.
  - right. split; [exact Hle|]. apply emitted_app.
    destruct Hinv as [->|[_ He]]; [apply emitted_all|exact He].
Qed.

Lemma pass_inv_emitted ordered st : pass_inv ordered st -> emitted ordered st.1.
Proof. intros [->|[_ He]]; [apply emitted_all|exact He]. Qed.

(** The bound on what was written: all contents and one marker. *)
Lemma emitted_length ordered out :
  emitted ordered out ->
  (length out <= content_length ordered + length SECTION_MARKER)%nat.
Proof.
  intros (k & tail & Hk & -> & Htail).
  rewrite length_app, length_concat_contents.
  assert (Hsplit : content_length ordered
                   = (content_length (take k ordered)
                      + content_length (drop k ordered))%nat)
    by (rewrite <- content_length_app, take_drop; reflexivity).
  destruct Htail as [->|(s & n & Hs & ->)]; [simpl; lia|].
  rewrite (drop_S _ _ _ Hs) in Hsplit. unfold content_length at 3 in Hsplit.
  simpl in Hsplit.
  rewrite length_app. pose proof (length_slice_to (content s) n). lia.
Qed.

Lemma with_priority_length l :
  Forall (fun s => priority s = 0 \/ priority s = 1 \/ priority s = 2) l ->
  content_length (with_priority 2 l ++ with_priority 1 l ++ with_priority 0 l)
  = content_length l.
Proof.
  unfold with_priority. rewrite !content_length_app.
  induction 1 as [|s l Hs _ IH]; [reflexivity|].
  rewrite !filter_cons. unfold content_length in *.
  repeat case_decide; simpl; lia.
Qed.

End Emission.

Section Truncate.

(** The section path, with the buckets taken from the unsorted sections. *)
Lemma truncate_sections text budget preserve :
  budget < estimate_tokens text -> preserve <> [] ->
  truncate_to_token_budget text budget (Some preserve)
  = let sections := split_sections text preserve in
    (guarded_emit (with_priority 0 sections)
       (guarded_emit (with_priority 1 sections)
          (emit (with_priority 2 sections) [] budget))).1.
Proof.
  intros Hover Hne. unfold truncate_to_token_budget.
  destruct (Z.leb_spec (estimate_tokens text) budget); [lia|].
  destruct preserve as [|p preserve]; [contradiction|].
  unfold with_priority. rewrite !filter_sort. reflexivity.
Qed.

Lemma truncate_sections_emitted text budget preserve :
  budget < estimate_tokens text -> preserve <> [] ->
  emitted (processing_order text preserve)
          (truncate_to_token_budget text budget (Some preserve)).
Proof.
  intros Hover Hne. rewrite truncate_sections by assumption.
  apply pass_inv_emitted. unfold processing_order. simpl.
  rewrite app_assoc. apply pass_inv_guarded.
  apply pass_inv_guarded.
  apply (pass_inv_emit [] _ [] budget). reflexivity.
Qed.

Lemma shaped_preamble preserve l :
  shaped preserve l ->
  exists header rest,
    l = header :: rest /\ title header = lit "Header" /\ priority header = 0
    /\ with_priority 0 l = [header]
    /\ Forall (fun s => priority s = if str_in (title s) preserve then 2 else 1) rest.
Proof.
  intros (h & rest & -> & Ht & Hp & Hrest).
  exists h, rest. repeat split; try assumption.
  unfold with_priority. rewrite filter_cons_True by exact Hp. f_equal.
  induction Hrest as [|s rest Hs _ IH]; [reflexivity|].
  rewrite filter_cons_False; [exact IH|].
  destruct (classified_priority preserve s Hs); lia.
Qed.

Lemma truncate_fits text budget preserve_sections :
  estimate_tokens text <= budget ->
  truncate_to_token_budget text budget preserve_sections = text.
Proof.
  intros H. unfold truncate_to_token_budget.
  destruct (Z.leb_spec (estimate_tokens text) budget); [reflexivity|lia].
Qed.

(** C5. Idempotence: a text whose estimate is within the budget is returned
    unchanged, whatever the preserve list. *)
Theorem truncate_within_budget (text : str) (budget : Z)
    (preserve_sections : option (list str)) :
  estimate_tokens text <= budget ->
  truncate_to_token_budget text budget preserve_sections = text.
Proof. exact (truncate_fits text budget preserve_sections). Qed.

Lemma truncate_within_budget_witness :
  estimate_tokens sample_text <= 7
  /\ truncate_to_token_budget sample_text 7 (Some [lit "X"]) = sample_text.
Proof.
  split; [vm_compute; discriminate|].
  apply truncate_within_budget. vm_compute. discriminate.
Defined.

(** C6, as the claim states it, fails: a text of 4 characters and a budget of
    0 give the 41 characters of the truncation marker. *)
Lemma truncate_longer_than_input :
  len (lit "abcd") < len (truncate_to_token_budget (lit "abcd") 0 None).
Proof. vm_compute. reflexivity. Qed.

Lemma truncate_plain_length text budget :
  len (truncate_to_token_budget text budget None) <= len text + 41.
Proof.
  unfold truncate_to_token_budget.
  destruct (estimate_tokens text <=? budget); [lia|].
  unfold len. rewrite length_app.
  pose proof (length_slice_to text (budget * 4)).
  change (length CONTENT_MARKER) with 41%nat. lia.
Qed.

(** C6, amended: the output is never longer than the input plus one
    truncation marker. Without a preserve list it has at most 41 characters
    more than the text (the marker); with any preserve list at most 44 (the
    newline the splitter adds to the last line, and the 43 characters of the
    section marker). *)
Theorem truncate_length_bound (text : str) (budget : Z)
    (preserve_sections : option (list str)) :
  len (truncate_to_token_budget text budget preserve_sections) <= len text + 44
  /\ len (truncate_to_token_budget text budget None) <= len text + 41.
Proof.
  split; [|apply truncate_plain_length].
  destruct (Z.le_gt_cases (estimate_tokens text) budget) as [Hfit|Hover].
  { rewrite truncate_fits by exact Hfit. lia. }
  destruct preserve_sections as [[|p preserve]|].
  - pose proof (truncate_plain_length text budget) as H.
    unfold truncate_to_token_budget in *.
    destruct (estimate_tokens text <=? budget); lia.
  - assert (Hne : p :: preserve <> []) by discriminate.
    pose proof (emitted_length _ _
                  (truncate_sections_emitted text budget (p :: preserve) Hover Hne)) as H.
    unfold processing_order in H. simpl in H.
    rewrite (with_priority_length _
               (shaped_priorities _ _ (split_sections_shaped (p :: preserve) text))) in H.
    rewrite split_sections_length in H.
    change (length SECTION_MARKER) with 43%nat in H.
    unfold len. lia.
  - pose proof (truncate_plain_length text budget). lia.
Qed.

End Truncate.

(* ===================================================================== *)
(** * Snapshots and assembly *)
(* ===================================================================== *)

Section Assembly.

Lemma get_latest_snapshot_missing w snapshot_type hierarchy_level :
  no_snapshot_files w snapshot_type hierarchy_level ->
  get_latest_snapshot w snapshot_type hierarchy_level
  = (None, not_found_message snapshot_type hierarchy_level).
Proof.
  unfold no_snapshot_files, get_latest_snapshot, not_found_message.
  destruct (listdir w snapshot_type hierarchy_level) as [entries|]; [|reflexivity].
  intros ->. reflexivity.
Qed.

Lemma collect_snapshots_missing w snapshot_type hierarchy_level types :
  no_snapshot_files w snapshot_type hierarchy_level ->
  collect_snapshots w hierarchy_level types
  = collect_snapshots w hierarchy_level (filter (fun t => t <> snapshot_type) types).
Proof.
  intros Hmiss. induction types as [|t types IH]; [reflexivity|].
  rewrite filter_cons. case_decide as Ht; simpl.
  - rewrite IH. reflexivity.
  - subst t.
    rewrite (get_latest_snapshot_missing _ _ _ Hmiss). exact IH.
Qed.

Lemma load_snapshots_missing w snapshot_type detail_level types token_budget :
  no_snapshot_files w snapshot_type (hierarchy_level_of detail_level) ->
  load_snapshots w detail_level types token_budget
  = load_snapshots w detail_level
      (Some (filter (fun t => t <> snapshot_type)
                    (default SNAPSHOT_TYPE_PRIORITIES types)))
      token_budget.
Proof.
  intros Hmiss. unfold load_snapshots.
  rewrite (collect_snapshots_missing w snapshot_type _ _ Hmiss) at 1.
  destruct types; reflexivity.
Qed.

(** After the prologue nothing raises and the tables are only read. *)
Lemma load_project_context_run w detail_level focus_area max_tokens t :
  load_project_context w detail_level focus_area max_tokens t
  = match adjust_budgets detail_level focus_area max_tokens t with
    | (Ok l, t') =>
        (Ok (documents_part w (entry t' l)
               ++ load_snapshots w detail_level (requested_types focus_area)
                                 (snapshots (entry t' l))),
         t')
    | (Raise e, t') => (Raise e, t')
    end.
Proof.
  unfold load_project_context, mbind, M_bind, bind.
  destruct (adjust_budgets detail_level focus_area max_tokens t) as [[l|e] t'];
    [|reflexivity].
  reflexivity.
Qed.

Lemma format_snapshots_extends w snapshots : forall result remaining,
  exists rest, format_snapshots w snapshots result remaining = result ++ rest.
Proof.
  induction snapshots as [|s snapshots IH]; intros result remaining; simpl.
  - exists []. rewrite app_nil_r. reflexivity.
  - destruct (remaining <=? 0); [exists []; rewrite app_nil_r; reflexivity|].
    destruct (_ <=? _); [|exists []; rewrite app_nil_r; reflexivity].
    match goal with |- context [format_snapshots w snapshots ?r ?b] =>
      destruct (IH r b) as [rest ->] end.
    eexists. rewrite <- !app_assoc. reflexivity.
Qed.

(** The fixed headers alone take 135 characters. *)
Lemma assembled_length w b detail_level types token_budget :
  135 <= len (documents_part w b ++ load_snapshots w detail_level types token_budget).
Proof.
  unfold load_snapshots.
  destruct (format_snapshots_extends w
              (sort snapshot_priority false
                 (collect_snapshots w (hierarchy_level_of detail_level)
                    (match types with Some l => l | None => SNAPSHOT_TYPE_PRIORITIES end)))
              (lit "# Project Snapshots" ++ [NL; NL]) token_budget) as [rest ->].
  unfold documents_part, len. rewrite !length_app. simpl. lia.
Qed.

(** C7. Missing snapshot: when the directory of a (type, level) pair is
    missing or holds no snapshot file, [get_latest_snapshot] returns [None]
    as path together with the not-found message; [load_snapshots] gives the
    same text as if the type had not been asked for; and the assembler, once
    its budgets are computed, returns (it does not raise) the documents
    followed by the snapshots of a list of types that does not contain the
    missing one. *)
Theorem missing_snapshot_omitted (w : world) (snapshot_type hierarchy_level : str) :
  no_snapshot_files w snapshot_type hierarchy_level ->
  get_latest_snapshot w snapshot_type hierarchy_level
    = (None, lit "No snapshots found for type '" ++ snapshot_type
               ++ lit "' at level '" ++ hierarchy_level ++ lit "'")
  /\ (forall detail_level types token_budget,
        hierarchy_level_of detail_level = hierarchy_level ->
        load_snapshots w detail_level types token_budget
        = load_snapshots w detail_level
            (Some (filter (fun t => t <> snapshot_type)
                          (default SNAPSHOT_TYPE_PRIORITIES types)))
            token_budget)
  /\ (forall detail_level focus_area max_tokens t l t',
        hierarchy_level_of detail_level = hierarchy_level ->
        adjust_budgets detail_level focus_area max_tokens t = (Ok l, t') ->
        exists types,
          (snapshot_type ∉ types)
          /\ load_project_context w detail_level focus_area max_tokens t
             = (Ok (documents_part w (entry t' l)
                      ++ load_snapshots w detail_level (Some types)
                                        (snapshots (entry t' l))),
                t')).
Proof.
  intros Hmiss. split; [|split].
  - exact (get_latest_snapshot_missing w snapshot_type hierarchy_level Hmiss).
  - intros detail_level types token_budget <-.
    apply load_snapshots_missing. exact Hmiss.
  - intros detail_level focus_area max_tokens t l t' <- Hadj.
    exists (filter (fun t => t <> snapshot_type)
                   (default SNAPSHOT_TYPE_PRIORITIES (requested_types focus_area))).
    split.
    + intros Hin. apply list_elem_of_filter in Hin as [Hne _]. apply Hne. reflexivity.
    + rewrite load_project_context_run, Hadj.
      rewrite <- load_snapshots_missing by exact Hmiss. reflexivity.
Qed.

Lemma missing_snapshot_omitted_witness :
  no_snapshot_files sample_world (lit "workflow") (lit "summary")
  /\ get_latest_snapshot sample_world (lit "workflow") (lit "summary")
     = (None, lit "No snapshots found for type 'workflow' at level 'summary'")
  /\ load_snapshots sample_world (lit "minimal") None 1000
     = load_snapshots sample_world (lit "minimal")
         (Some [lit "general"; lit "architecture"; lit "knowledge_graph"]) 1000
  /\ exists types,
       (lit "workflow" ∉ types)
       /\ load_project_context sample_world (lit "minimal") (Some (lit "workflow"))
                               10000 DEFAULT_TOKEN_BUDGETS
          = (Ok (documents_part sample_world (Budgets 500 1000 500 2000 3000)
                   ++ load_snapshots sample_world (lit "minimal") (Some types) 2000),
             {| minimal := Budgets 500 1000 500 2000 3000;
                standard := Budgets 1000 2000 1000 4000 8000;
                comprehensive := Budgets 2000 3000 2000 8000 15000 |}).
Proof.
  destruct (missing_snapshot_omitted sample_world (lit "workflow") (lit "summary") I)
    as (Hlatest & Hload & Hctx).
  split; [exact I|]. split; [exact Hlatest|]. split.
  - exact (Hload (lit "minimal") None 1000 eq_refl).
  - apply (Hctx (lit "minimal") (Some (lit "workflow")) 10000 DEFAULT_TOKEN_BUDGETS
                Minimal
                {| minimal := Budgets 500 1000 500 2000 3000;
                   standard := Budgets 1000 2000 1000 4000 8000;
                   comprehensive := Budgets 2000 3000 2000 8000 15000 |});
      [reflexivity | vm_compute; reflexivity].
Defined.

(** C8. The ceiling does not bound the document: on the tables of the
    module, for every store, detail level and focus area and every
    [max_tokens] from 1 to 32, [load_project_context] returns a text whose
    token estimate is greater than [max_tokens]; the headers and the
    timestamp line, which no budget accounts for, alone take 135
    characters. *)
Theorem ceiling_exceeded (w : world) (detail_level : str) (focus_area : option str)
    (max_tokens : Z) :
  0 < max_tokens -> max_tokens <= 32 ->
  exists out t',
    load_project_context w detail_level focus_area max_tokens DEFAULT_TOKEN_BUDGETS
      = (Ok out, t')
    /\ max_tokens < estimate_tokens out.
Proof.
  intros Hpos Hsmall.
  destruct (adjust_budgets_default detail_level focus_area max_tokens Hpos)
    as (t' & Hadj & _).
  rewrite load_project_context_run, Hadj.
  eexists _, t'. split; [reflexivity|].
  pose proof (assembled_length w (entry t' (resolve detail_level)) detail_level
                (requested_types focus_area)
                (snapshots (entry t' (resolve detail_level)))) as Hlen.
  unfold estimate_tokens.
  apply Z.lt_le_trans with 33; [lia|].
  apply Z.div_le_lower_bound; lia.
Qed.

Lemma ceiling_exceeded_witness :
  0 < 1 /\ 1 <= 32
  /\ exists out t',
       load_project_context sample_world (lit "standard") None 1 DEFAULT_TOKEN_BUDGETS
         = (Ok out, t')
       /\ 1 < estimate_tokens out.
Proof.
  split; [lia|]. split; [lia|].
  apply (ceiling_exceeded sample_world (lit "standard") None 1); lia.
Defined.

(** C3, the code on two successive calls with the same arguments and the same
    store. The prologue writes through the alias [token_budgets] into
    [DEFAULT_TOKEN_BUDGETS]: the first call leaves the "standard" entry at
    250, 500, 250, 1000 (total 4000), the second call starts from these
    values and computes 166, 333, 166, 666, and the two returned texts
    differ (the readme of 250 tokens is whole in the first and cut in the
    second). *)
Theorem repeated_call_differs :
  let call := load_project_context sample_world (lit "standard") None 4000 in
  let first := call DEFAULT_TOKEN_BUDGETS in
  let second := call first.2 in
  standard first.2 = Budgets 250 500 250 1000 4000
  /\ standard second.2 = Budgets 166 333 166 666 4000
  /\ first.2 <> DEFAULT_TOKEN_BUDGETS
  /\ (exists out1 out2,
        first.1 = Ok out1 /\ second.1 = Ok out2
        /\ len out1 = 1186 /\ len out2 = 891 /\ out1 <> out2).
Proof.
  intros call first second.
  split; [vm_compute; reflexivity|]. split; [vm_compute; reflexivity|].
  split; [intros H; apply (f_equal (fun t => readme (standard t))) in H;
          vm_compute in H; discriminate|].
  destruct first.1 as [out1|e] eqn:H1; [|vm_compute in H1; discriminate].
  destruct second.1 as [out2|e] eqn:H2; [|vm_compute in H2; discriminate].
  assert (L1 : len out1 = 1186).
  { assert (H : match first.1 with Ok o => len o | Raise _ => 0 end = 1186)
      by (vm_compute; reflexivity).
    rewrite H1 in H. exact H. }
  assert (L2 : len out2 = 891).
  { assert (H : match second.1 with Ok o => len o | Raise _ => 0 end = 891)
      by (vm_compute; reflexivity).
    rewrite H2 in H. exact H. }
  exists out1, out2. repeat split; try assumption.
  intros ->. lia.
Qed.

End Assembly.

(* ===================================================================== *)
(** * Knowledge-graph validation *)
(* ===================================================================== *)

Section Validation.






(** C10. Import validation: a snapshot dictionary without the key entities
    or without the key relationships is answered at once with exactly
    [{"success": False, "error": "Invalid snapshot format"}]; nothing is
    printed and nothing is imported. *)
Theorem import_rejects_malformed (snapshot : dict) :
  snapshot !! lit "entities" = None \/ snapshot !! lit "relationships" = None ->
  import_graph_snapshot snapshot
  = (<[lit "success" := VBool false]>
       (<[lit "error" := VStr (lit "Invalid snapshot format")]> ∅),
     []).
Proof.
  intros H. unfold import_graph_snapshot, has_key.
  destruct H as [H|H]; rewrite H.
  - rewrite bool_decide_eq_false_2 by (intros [v Hv]; discriminate). reflexivity.
  - rewrite (bool_decide_eq_false_2 (is_Some None)) by (intros [v Hv]; discriminate).
    rewrite orb_true_r. reflexivity.
Qed.

Lemma import_rejects_malformed_witness :
  ((∅ : dict) !! lit "entities" = None \/ (∅ : dict) !! lit "relationships" = None)
  /\ import_graph_snapshot ∅
     = (<[lit "success" := VBool false]>
          (<[lit "error" := VStr (lit "Invalid snapshot format")]> ∅),
        []).
Proof.
  split; [left; apply lookup_empty|].
  apply import_rejects_malformed. left. apply lookup_empty.
Defined.

End Validation.

(* ===================================================================== *)
(** * The splitter and the passes, further *)
(* ===================================================================== *)

Section SplitterRoundTrip.

Variable preserve : list str.

Lemma split_lines_concat (text : str) :
  concat (map (fun l => l ++ [NL]) (split_lines text)) = text ++ [NL].
Proof.
  induction text as [|c r IH]; [reflexivity|].
  simpl. destruct (N.eqb_spec c NL) as [->|Hne].
  - simpl. rewrite IH. reflexivity.
  - destruct (split_lines r) as [|l ls]; simpl in *.
    + destruct r; discriminate.
    + rewrite <- IH. reflexivity.
Qed.

Lemma split_step_concat st line :
  concat (map content (all_sections (split_step preserve st line)))
  = concat (map content (all_sections st)) ++ line ++ [NL].
Proof.
  destruct st as [sections current]. unfold all_sections, split_step. simpl.
  destruct (startswith line (lit "## ")); simpl;
    rewrite !map_app, !concat_app; simpl; rewrite ?app_nil_r, <- ?app_assoc;
    reflexivity.
Qed.

Lemma fold_split_step_concat lines : forall st,
  concat (map content (all_sections (fold_left (split_step preserve) lines st)))
  = concat (map content (all_sections st))
      ++ concat (map (fun l => l ++ [NL]) lines).
Proof.
  induction lines as [|line lines IH]; intros st; simpl.
  - rewrite app_nil_r. reflexivity.
  - rewrite IH, split_step_concat, <- !app_assoc. reflexivity.
Qed.

(** X1. The splitter loses nothing: the section contents, joined in document
    order, are the text followed by one newline. *)
Theorem split_sections_concat (text : str) :
  concat (map content (split_sections text preserve)) = text ++ [NL].
Proof.
  rewrite split_sections_all, fold_split_step_concat, split_lines_concat.
  reflexivity.
Qed.

Lemma split_step_headed st line :
  Forall headed (tail (all_sections st)) ->
  Forall headed (tail (all_sections (split_step preserve st line))).
Proof.
  destruct st as [sections current]. unfold all_sections, split_step. simpl.
  intros H. destruct (startswith line (lit "## ")) eqn:Hs; simpl.
  - destruct sections as [|s0 sections]; simpl in *.
    + apply Forall_singleton. exists line, []. simpl. auto.
    + apply Forall_app. split; [exact H|].
      apply Forall_singleton. exists line, []. simpl. auto.
  - destruct sections as [|s0 sections]; simpl in *; [constructor|].
    apply Forall_app in H as [H1 H2]. apply Forall_app. split; [exact H1|].
    apply Forall_singleton. rewrite Forall_singleton in H2.
    destruct H2 as (l0 & body & Hc & Hst & Ht).
    exists l0, (body ++ line ++ [NL]). simpl. rewrite Hc.
    split; [rewrite <- !app_assoc; reflexivity|]. auto.
Qed.

Lemma split_step_count st line :
  length (all_sections (split_step preserve st line))
  = (length (all_sections st)
     + if startswith line (lit "## ") then 1 else 0)%nat.
Proof.
  destruct st as [sections current]. unfold all_sections, split_step. simpl.
  destruct (startswith line (lit "## ")); simpl; rewrite !length_app; simpl; lia.
Qed.

Lemma fold_split_step_headed lines : forall st,
  Forall headed (tail (all_sections st)) ->
  Forall headed (tail (all_sections (fold_left (split_step preserve) lines st)))
  /\ length (all_sections (fold_left (split_step preserve) lines st))
     = (length (all_sections st)
        + length (filter (fun line => startswith line (lit "## ") = true) lines))%nat.
Proof.
  induction lines as [|line lines IH]; intros st Hst; simpl.
  - split; [exact Hst|]. lia.
  - destruct (IH _ (split_step_headed st line Hst)) as [Hh Hl].
    split; [exact Hh|]. rewrite Hl, split_step_count, filter_cons.
    destruct (startswith line (lit "## ")); case_decide; simpl;
      try congruence; lia.
Qed.

(** X2. One section per heading line, after the preamble; each of them starts
    with its heading line and is titled by the stripped heading text. *)
Theorem split_sections_headings (text : str) :
  length (split_sections text preserve) = S (length (heading_lines text))
  /\ Forall headed (tail (split_sections text preserve)).
Proof.
  rewrite split_sections_all.
  destruct (fold_split_step_headed (split_lines text)
              ([], Section_ (lit "Header") [] 0)) as [Hh Hl]; [constructor|].
  split; [rewrite Hl; reflexivity|exact Hh].
Qed.

End SplitterRoundTrip.

Section SortedSections.

Context {A : Type} (key : A -> Z).

Lemma insert_by_Forall (P : A -> Prop) x l :
  P x -> Forall P l -> Forall P (insert_by key x l).
Proof.
  intros Hx Hl. induction Hl as [|y l Hy Hl IH]; simpl.
  - constructor; [exact Hx|constructor].
  - destruct (key x <=? key y); repeat constructor; assumption.
Qed.

Lemma insert_by_ascending x l :
  ascending key l -> ascending key (insert_by key x l).
Proof.
  induction l as [|y l IH]; simpl; intros Hl.
  - split; constructor.
  - destruct Hl as [Hy Hl]. destruct (Z.leb_spec (key x) (key y)) as [Hle|Hlt].
    + simpl. split; [|split; assumption].
      constructor; [exact Hle|].
      eapply Forall_impl; [exact Hy|]. simpl. intros z Hz. lia.
    + simpl. split; [|apply IH; exact Hl].
      apply insert_by_Forall; [lia|exact Hy].
Qed.

Lemma stable_sort_ascending l : ascending key (stable_sort key l).
Proof.
  induction l as [|x l IH]; simpl; [exact I|].
  apply insert_by_ascending. exact IH.
Qed.

(** An ascending list over the keys 0, 1, 2 is its three classes in turn. *)
Lemma ascending_classes l :
  ascending key l ->
  Forall (fun s => key s = 0 \/ key s = 1 \/ key s = 2) l ->
  l = filter (fun s => key s = 0) l ++ filter (fun s => key s = 1) l
        ++ filter (fun s => key s = 2) l.
Proof.
  induction l as [|x l IH]; [reflexivity|].
  intros [Hx Hl] Hk. apply Forall_cons in Hk as [Hkx Hk].
  specialize (IH Hl Hk).
  assert (E : forall p, p < key x -> filter (fun s => key s = p) l = []).
  { intros p Hp. clear IH Hl Hk. induction Hx as [|y l Hy _ IHx]; [reflexivity|].
    rewrite filter_cons_False by lia. exact IHx. }
  rewrite !filter_cons.
  destruct Hkx as [K|[K|K]]; repeat case_decide; try lia.
  - simpl. f_equal. exact IH.
  - rewrite (E 0) by lia. simpl. f_equal.
    rewrite (E 0) in IH by lia. exact IH.
  - rewrite (E 0), (E 1) by lia. simpl. f_equal.
    rewrite (E 0), (E 1) in IH by lia. exact IH.
Qed.

End SortedSections.

Section SortedByPriority.

(** X3. The sort of the section path (source line 101) groups the sections as
    Preserved, Normal, Preamble and keeps the document order inside each
    group. *)
Theorem sections_sorted_by_priority (text : str) (preserve : list str) :
  let sections := split_sections text preserve in
  sort priority true sections
  = with_priority 2 sections ++ with_priority 1 sections ++ with_priority 0 sections.
Proof.
  intros sections.
  pose proof (shaped_priorities preserve sections
                (split_sections_shaped preserve text)) as Hk.
  unfold with_priority.
  rewrite <- !(filter_sort priority _ true sections).
  unfold sort at 1.
  set (a := stable_sort priority (reverse sections)).
  assert (Ha : ascending priority a) by apply stable_sort_ascending.
  assert (Hka : Forall (fun s => priority s = 0 \/ priority s = 1 \/ priority s = 2) a).
  { apply Forall_forall. intros s Hs.
    assert (Hin : s ∈ filter (fun x => priority x = priority s) a)
      by (apply list_elem_of_filter; auto).
    unfold a in Hin. rewrite filter_stable_sort, filter_reverse in Hin.
    apply elem_of_reverse, list_elem_of_filter in Hin as [_ Hin].
    rewrite Forall_forall in Hk. exact (Hk s Hin). }
  rewrite (ascending_classes priority a Ha Hka) at 1.
  rewrite !reverse_app, <- !filter_reverse, <- app_assoc.
  unfold sort. fold a. reflexivity.
Qed.

End SortedByPriority.

Section PlainTruncation.

(** X4. Without a preserve list a text over a non-negative budget is cut to
    exactly four characters per token and the marker is added after the
    cut, so the result is estimated at ten tokens more than the budget. *)
Theorem truncate_plain_overshoots (text : str) (budget : Z)
    (preserve_sections : option (list str)) :
  preserve_sections = None \/ preserve_sections = Some [] ->
  0 <= budget < estimate_tokens text ->
  truncate_to_token_budget text budget preserve_sections
    = take (Z.to_nat (4 * budget)) text ++ CONTENT_MARKER
  /\ len (truncate_to_token_budget text budget preserve_sections) = 4 * budget + 41
  /\ estimate_tokens (truncate_to_token_budget text budget preserve_sections)
     = budget + 10.
Proof.
  intros Hp [H0 Hover].
  assert (Hout : truncate_to_token_budget text budget preserve_sections
                 = take (Z.to_nat (4 * budget)) text ++ CONTENT_MARKER).
  { unfold truncate_to_token_budget.
    destruct (Z.leb_spec (estimate_tokens text) budget); [lia|].
    unfold slice_to. destruct (Z.ltb_spec (budget * 4) 0); [lia|].
    replace (budget * 4) with (4 * budget) by lia.
    destruct Hp as [->| ->]; reflexivity. }
  assert (Hlen : 4 * budget + 4 <= len text).
  { unfold estimate_tokens in Hover.
    pose proof (Z.mul_div_le (len text) 4). lia. }
  assert (HL : len (take (Z.to_nat (4 * budget)) text ++ CONTENT_MARKER)
               = 4 * budget + 41).
  { unfold len in *. rewrite length_app, length_take.
    change (length CONTENT_MARKER) with 41%nat. lia. }
  rewrite Hout. split; [reflexivity|]. split; [exact HL|].
  unfold estimate_tokens. rewrite HL.
  replace (4 * budget + 41) with (1 + (budget + 10) * 4) by lia.
  rewrite Z.div_add by lia. reflexivity.
Qed.

Lemma truncate_plain_overshoots_witness :
  (@None (list str) = None \/ @None (list str) = Some [])
  /\ 0 <= 1 < estimate_tokens sample_text
  /\ estimate_tokens (truncate_to_token_budget sample_text 1 None) = 1 + 10.
Proof.
  split; [left; reflexivity|]. split; [vm_compute; split; [discriminate|reflexivity]|].
  apply (truncate_plain_overshoots sample_text 1 None); [left; reflexivity|].
  vm_compute. split; [discriminate|reflexivity].
Defined.

End PlainTruncation.

Section Accounting.

Lemma tokens_of_app l1 l2 : tokens_of (l1 ++ l2) = tokens_of l1 + tokens_of l2.
Proof.
  induction l1 as [|s l1 IH]; cbn [tokens_of app]; [reflexivity|]. rewrite IH. lia.
Qed.

Lemma tokens_of_nonneg l : 0 <= tokens_of l.
Proof.
  induction l as [|s l IH]; cbn [tokens_of]; [lia|].
  assert (0 <= estimate_tokens (content s)).
  { unfold estimate_tokens, len. apply Z.div_pos; lia. }
  lia.
Qed.

(** One pass with a non-negative budget: the whole bucket, charged, or a
    stop at the first section that does not fit. *)
Lemma emit_charged bucket : forall result remaining,
  0 <= remaining ->
  ((emit bucket result remaining).1 = result ++ concat (map content bucket)
   /\ (emit bucket result remaining).2 = remaining - tokens_of bucket
   /\ 0 <= remaining - tokens_of bucket)
  \/ ((emit bucket result remaining).2 = 0
      /\ exists k s,
           bucket !! k = Some s
           /\ tokens_of (take k bucket) <= remaining
           /\ remaining - tokens_of (take k bucket) < estimate_tokens (content s)
           /\ (emit bucket result remaining).1
              = result ++ concat (map content (take k bucket))
                  ++ take (Z.to_nat (4 * (remaining - tokens_of (take k bucket))))
                          (content s)
                  ++ SECTION_MARKER).
Proof.
  induction bucket as [|s bucket IH]; intros result remaining Hrem;
    cbn [emit tokens_of map concat].
  - left. rewrite app_nil_r. cbn [fst snd]. split; [reflexivity|]. split; lia.
  - destruct (Z.leb_spec (estimate_tokens (content s)) remaining) as [Hfit|Hover].
    + destruct (IH (result ++ content s) (remaining - estimate_tokens (content s)))
        as [(Hout & Hrest & Hge) | (Hz & k & s' & Hk & Hle & Hlt & Hout)]; [lia| |].
      * left. rewrite Hout, Hrest, <- app_assoc. split; [reflexivity|]. split; lia.
      * right. split; [exact Hz|]. exists (S k), s'.
        cbn [take tokens_of map concat].
        split; [exact Hk|]. split; [lia|]. split; [lia|].
        rewrite Hout, <- !app_assoc, Z.sub_add_distr. reflexivity.
    + right. split; [reflexivity|]. exists 0%nat, s.
      cbn [take tokens_of map concat fst].
      split; [reflexivity|]. split; [lia|]. split; [lia|].
      unfold slice_to. destruct (Z.ltb_spec (remaining * 4) 0); [lia|].
      rewrite Z.sub_0_r, (Z.mul_comm 4). reflexivity.
Qed.

Lemma charged_app budget ordered bucket out :
  charged budget ordered out -> charged budget (ordered ++ bucket) out.
Proof.
  intros (k & Hk & Hused & Hout). exists k.
  rewrite take_app_le by exact Hk.
  split; [rewrite length_app; lia|]. split; [exact Hused|].
  destruct Hout as [->|(s & Hs & Hlt & ->)]; [left; reflexivity|].
  right. exists s. split; [apply lookup_app_l_Some; exact Hs|]. auto.
Qed.

Lemma charged_inv_emit budget ordered bucket result remaining :
  result = concat (map content ordered) ->
  remaining = budget - tokens_of ordered -> 0 <= remaining ->
  charged_inv budget (ordered ++ bucket) (emit bucket result remaining).
Proof.
  intros -> -> Hrem.
  destruct (emit_charged bucket (concat (map content ordered))
              (budget - tokens_of ordered) Hrem)
    as [(Hout & Hrest & Hge) | (Hz & k & s & Hk & Hle & Hlt & Hout)].
  - left. rewrite Hout, Hrest, concat_contents_app, tokens_of_app.
    split; [reflexivity|]. split; lia.
  - right. split; [lia|].
    pose proof (lookup_lt_Some _ _ _ Hk) as Hlen.
    exists (length ordered + k)%nat.
    rewrite take_app_add, tokens_of_app, concat_contents_app.
    split; [rewrite length_app; lia|]. split; [lia|].
    right. exists s. split.
    + rewrite lookup_app_r by lia.
      replace (length ordered + k - length ordered)%nat with k by lia. exact Hk.
    + split; [lia|]. rewrite Hout, <- !app_assoc, Z.sub_add_distr. reflexivity.
Qed.

Lemma charged_inv_guarded budget ordered bucket st :
  charged_inv budget ordered st ->
  charged_inv budget (ordered ++ bucket) (guarded_emit bucket st).
Proof.
  intros Hinv. unfold guarded_emit.
  destruct (Z.gtb_spec st.2 0) as [Hpos|Hle].
  - destruct Hinv as [(Hout & Hrem & Hge)|[Hz _]]; [|lia].
    apply charged_inv_emit; assumption.
  - right. split; [exact Hle|]. apply charged_app.
    destruct Hinv as [(Hout & Hrem & Hge)|[_ Hc]]; [|exact Hc].
    exists (length ordered). rewrite take_ge by lia.
    split; [lia|]. split; [lia|]. left. exact Hout.
Qed.

Lemma charged_inv_charged budget ordered st :
  charged_inv budget ordered st -> charged budget ordered st.1.
Proof.
  intros [(Hout & Hrem & Hge)|[_ Hc]]; [|exact Hc].
  exists (length ordered). rewrite take_ge by lia.
  split; [lia|]. split; [lia|]. left. exact Hout.
Qed.

(** X5. The section path keeps its accounts: for a non-negative budget the
    sections written whole are estimated within the budget, and a cut section
    gets four characters for each token that is left. *)
Theorem truncate_sections_charged (text : str) (budget : Z) (preserve : list str) :
  0 <= budget < estimate_tokens text ->
  preserve <> [] ->
  let sections := split_sections text preserve in
  let ordered :=
    with_priority 2 sections ++ with_priority 1 sections ++ with_priority 0 sections in
  let out := truncate_to_token_budget text budget (Some preserve) in
  exists k,
    (k <= length ordered)%nat
    /\ tokens_of (take k ordered) <= budget
    /\ (out = concat (map content (take k ordered))
        \/ exists s,
             ordered !! k = Some s
             /\ budget - tokens_of (take k ordered) < estimate_tokens (content s)
             /\ out = concat (map content (take k ordered))
                      ++ take (Z.to_nat (4 * (budget - tokens_of (take k ordered))))
                              (content s)
                      ++ SECTION_MARKER).
Proof.
  intros [H0 Hover] Hne sections ordered out. subst out.
  rewrite truncate_sections by assumption. simpl. fold sections.
  apply (charged_inv_charged budget ordered). subst ordered.
  rewrite app_assoc. apply charged_inv_guarded, charged_inv_guarded.
  apply (charged_inv_emit budget [] _ [] budget); simpl; [reflexivity|lia|lia].
Qed.

Lemma truncate_sections_charged_witness :
  0 <= 4 < estimate_tokens sample_text
  /\ [lit "X"] <> []
  /\ exists k,
       (k <= length (processing_order sample_text [lit "X"]))%nat
       /\ tokens_of (take k (processing_order sample_text [lit "X"])) <= 4
       /\ (truncate_to_token_budget sample_text 4 (Some [lit "X"])
            = concat (map content (take k (processing_order sample_text [lit "X"])))
           \/ exists s,
                processing_order sample_text [lit "X"] !! k = Some s
                /\ 4 - tokens_of (take k (processing_order sample_text [lit "X"]))
                   < estimate_tokens (content s)
                /\ truncate_to_token_budget sample_text 4 (Some [lit "X"])
                   = concat (map content
                               (take k (processing_order sample_text [lit "X"])))
                       ++ take (Z.to_nat
                                  (4 * (4 - tokens_of
                                             (take k (processing_order sample_text
                                                        [lit "X"])))))
                               (content s)
                       ++ SECTION_MARKER).
Proof.
  split; [vm_compute; split; [discriminate|reflexivity]|]. split; [discriminate|].
  apply (truncate_sections_charged sample_text 4 [lit "X"]);
    [vm_compute; split; [discriminate|reflexivity] | discriminate].
Defined.

End Accounting.

Section PriorityOrder.

(** One pass, exactly: the sections that fit in turn are written whole, and
    the first one that does not fit is cut and ends the pass. *)
Lemma emit_exact bucket : forall result remaining,
  exists j,
    (forall i s, (i < j)%nat -> bucket !! i = Some s ->
       estimate_tokens (content s) <= remaining - tokens_of (take i bucket))
    /\ ((j = length bucket
         /\ emit bucket result remaining
            = (result ++ concat (map content bucket), remaining - tokens_of bucket))
        \/ exists s,
             bucket !! j = Some s
             /\ remaining - tokens_of (take j bucket) < estimate_tokens (content s)
             /\ emit bucket result remaining
                = (result ++ concat (map content (take j bucket))
                     ++ slice_to (content s)
                                 ((remaining - tokens_of (take j bucket)) * 4)
                     ++ SECTION_MARKER, 0)).
Proof.
  induction bucket as [|s bucket IH]; intros result remaining.
  - exists 0%nat. split; [intros i s Hi; lia|].
    left. split; [reflexivity|]. simpl. rewrite app_nil_r. f_equal. lia.
  - cbn [emit]. destruct (Z.leb_spec (estimate_tokens (content s)) remaining) as [Hfit|Hcut].
    + destruct (IH (result ++ content s) (remaining - estimate_tokens (content s)))
        as (j & Hpre & Hend).
      exists (S j). split.
      * intros [|i] s' Hi Hs'; cbn [take tokens_of].
        -- injection Hs' as <-. lia.
        -- specialize (Hpre i s' ltac:(lia) Hs'). lia.
      * destruct Hend as [[-> Hall]|(s' & Hs' & Hlt & Hcut)].
        -- left. split; [reflexivity|]. rewrite Hall. cbn [map concat tokens_of].
           rewrite <- app_assoc. f_equal. lia.
        -- right. exists s'. split; [exact Hs'|]. cbn [take tokens_of map concat].
           split; [lia|]. rewrite Hcut, <- !app_assoc.
           replace (remaining - estimate_tokens (content s) - tokens_of (take j bucket))
             with (remaining - (estimate_tokens (content s) + tokens_of (take j bucket)))
             by lia.
           reflexivity.
    + exists 0%nat. split; [intros i s' Hi; lia|].
      right. exists s. split; [reflexivity|]. cbn [take tokens_of map concat].
      split; [lia|]. rewrite Z.sub_0_r. reflexivity.
Qed.

Variables (b1 b2 : nat) (budget : Z).

Lemma left_at_bucket (done bucket todo : list section) i :
  (i <= length bucket)%nat ->
  left_at budget (done ++ bucket ++ todo) (length done + i)
  = budget - tokens_of done - tokens_of (take i bucket).
Proof.
  intros Hi. unfold left_at.
  rewrite take_app_add, take_app_le by exact Hi. rewrite tokens_of_app. lia.
Qed.

(** A pass over the next bucket, when all before it was written whole and
    no position of the bucket is a closed pass start. *)
Lemma pass_state_emit (done bucket todo : list section) (st : str * Z) :
  let ordered := done ++ bucket ++ todo in
  st.1 = concat (map content done) ->
  st.2 = budget - tokens_of done ->
  whole_before b1 b2 budget ordered (length done) ->
  (forall i, (length done <= i < length done + length bucket)%nat ->
             ~ pass_closed b1 b2 budget ordered i) ->
  pass_state b1 b2 budget ordered (done ++ bucket) (emit bucket st.1 st.2).
Proof.
  intros ordered H1 H2 Hwhole Hopen.
  destruct (emit_exact bucket st.1 st.2) as (j & Hpre & Hend).
  assert (Hj : (j <= length bucket)%nat).
  { destruct Hend as [[-> _]|(s & Hs & _)]; [lia|].
    apply lookup_lt_Some in Hs. lia. }
  assert (Hbefore : whole_before b1 b2 budget ordered (length done + j)).
  { intros i s Hi Hs.
    destruct (Nat.lt_ge_cases i (length done)) as [Hlt|Hge].
    - exact (Hwhole i s Hlt Hs).
    - replace i with (length done + (i - length done))%nat in * by lia.
      set (i' := (i - length done)%nat) in *.
      split; [|apply Hopen; lia].
      unfold ordered in *. rewrite left_at_bucket by lia.
      rewrite lookup_app_r, lookup_app_l in Hs by lia.
      replace (length done + i' - length done)%nat with i' in Hs by lia.
      specialize (Hpre i' s ltac:(lia) Hs). lia. }
  destruct Hend as [[-> Hall]|(s & Hs & Hlt & Hcut)].
  - left. rewrite Hall. cbn [fst snd].
    rewrite H1, H2, concat_contents_app, tokens_of_app, length_app.
    split; [reflexivity|]. split; [lia|exact Hbefore].
  - right. rewrite Hcut. cbn [fst snd]. split; [lia|].
    exists (length done + j)%nat. split; [exact Hbefore|].
    right. exists s. pose proof (lookup_lt_Some _ _ _ Hs) as Hlen.
    split; [|split; [apply Hopen; lia|]].
    + unfold ordered. rewrite lookup_app_r, lookup_app_l by lia.
      replace (length done + j - length done)%nat with j by lia. exact Hs.
    + unfold ordered. rewrite left_at_bucket by lia.
      split; [lia|].
      rewrite take_app_add, take_app_le by lia.
      rewrite concat_contents_app, H1, <- !app_assoc.
      replace (st.2 - tokens_of (take j bucket))
        with (budget - tokens_of done - tokens_of (take j bucket)) by lia.
      reflexivity.
Qed.

(** A guarded pass: it starts at [b1] or [b2], and is entered only with a
    positive budget. *)
Lemma pass_state_guarded (done bucket todo : list section) (st : str * Z) :
  let ordered := done ++ bucket ++ todo in
  (bucket <> [] -> length done = b1 \/ length done = b2) ->
  (forall i, (length done < i < length done + length bucket)%nat ->
             i <> b1 /\ i <> b2) ->
  pass_state b1 b2 budget ordered done st ->
  pass_state b1 b2 budget ordered (done ++ bucket) (guarded_emit bucket st).
Proof.
  intros ordered Hstart Hinner [(H1 & H2 & Hwhole)|[Hz Hstop]]; unfold guarded_emit.
  - destruct (Z.gtb_spec st.2 0) as [Hpos|Hle].
    + apply pass_state_emit; try assumption.
      intros i Hi [Hb Hleft].
      destruct (decide (i = length done)) as [->|Hne].
      * unfold left_at, ordered in Hleft.
        rewrite take_app_le, take_ge in Hleft by lia. lia.
      * destruct (Hinner i ltac:(lia)). lia.
    + destruct bucket as [|s bucket].
      * left. rewrite app_nil_r. auto.
      * right. split; [exact Hle|]. exists (length done).
        split; [exact Hwhole|]. left.
        assert (Htake : take (length done) ordered = done)
          by (unfold ordered; rewrite take_app_le, take_ge by lia; reflexivity).
        split; [unfold ordered; rewrite !length_app; simpl; lia|].
        split; [|rewrite Htake; exact H1].
        split; [apply Hstart; discriminate|].
        unfold left_at. rewrite Htake. lia.
  - destruct (Z.gtb_spec st.2 0) as [Hpos|Hle]; [lia|].
    right. split; assumption.
Qed.

(** The walk leaves no choice: it determines the output. *)
Lemma walked_unique (ordered : list section) (out1 out2 : str) :
  walked b1 b2 budget ordered out1 -> walked b1 b2 budget ordered out2 ->
  out1 = out2.
Proof.
  assert (Hlen : forall k out,
            whole_before b1 b2 budget ordered k ->
            (k = length ordered /\ out = concat (map content ordered))
            \/ ((k < length ordered)%nat /\ pass_closed b1 b2 budget ordered k
                /\ out = concat (map content (take k ordered)))
            \/ (exists s,
                  ordered !! k = Some s
                  /\ ~ pass_closed b1 b2 budget ordered k
                  /\ left_at budget ordered k < estimate_tokens (content s)
                  /\ out = concat (map content (take k ordered))
                           ++ slice_to (content s) (left_at budget ordered k * 4)
                           ++ SECTION_MARKER) ->
            (k <= length ordered)%nat).
  { intros k out _ [[-> _]|[[H _]|(s & Hs & _)]]; [lia|lia|].
    apply lookup_lt_Some in Hs. lia. }
  assert (Hle : forall k1 k2 o1 o2,
            whole_before b1 b2 budget ordered k2 -> (k2 <= length ordered)%nat ->
            (k1 = length ordered /\ o1 = concat (map content ordered))
            \/ ((k1 < length ordered)%nat /\ pass_closed b1 b2 budget ordered k1
                /\ o1 = concat (map content (take k1 ordered)))
            \/ (exists s,
                  ordered !! k1 = Some s
                  /\ ~ pass_closed b1 b2 budget ordered k1
                  /\ left_at budget ordered k1 < estimate_tokens (content s)
                  /\ o1 = o2) ->
            (k2 <= k1)%nat).
  { intros k1 k2 o1 o2 Hwhole Hk2 Hend.
    destruct (Nat.le_gt_cases k2 k1) as [|Hlt]; [assumption|exfalso].
    destruct (lookup_lt_is_Some_2 ordered k1 ltac:(lia)) as [s Hs].
    destruct (Hwhole k1 s Hlt Hs) as [Hfit Hopen].
    destruct Hend as [[-> _]|[(_ & Hc & _)|(s' & Hs' & _ & Hcut & _)]];
      [lia|contradiction|].
    rewrite Hs in Hs'. injection Hs' as <-. lia. }
  intros (k1 & Hw1 & He1) (k2 & Hw2 & He2).
  pose proof (Hlen k1 out1 Hw1 He1) as Hk1. pose proof (Hlen k2 out2 Hw2 He2) as Hk2.
  assert (Hk : k1 = k2).
  { apply Nat.le_antisymm.
    - apply (Hle k2 k1 out2 out2 Hw1 Hk1).
      destruct He2 as [?|[?|(s & ? & ? & ? & _)]]; eauto 10.
    - apply (Hle k1 k2 out1 out1 Hw2 Hk2).
      destruct He1 as [?|[?|(s & ? & ? & ? & _)]]; eauto 10. }
  subst k2.
  destruct He1 as [[Hk ->]|[(Hlt & Hc & ->)|(s & Hs & Ho & _ & ->)]];
    destruct He2 as [[Hk' ->]|[(Hlt' & Hc' & ->)|(s' & Hs' & Ho' & _ & ->)]];
    try reflexivity; try lia; try contradiction.
  - apply lookup_lt_Some in Hs'. lia.
  - apply lookup_lt_Some in Hs. lia.
  - rewrite Hs in Hs'. injection Hs' as <-. reflexivity.
Qed.

End PriorityOrder.

Section PriorityOrderPasses.

(** The three passes over the buckets, taken together. *)
Lemma passes_state (preserved normal preamble : list section) (budget : Z) :
  let ordered := preserved ++ normal ++ preamble in
  pass_state (length preserved) (length (preserved ++ normal)) budget ordered ordered
    (guarded_emit preamble (guarded_emit normal (emit preserved [] budget))).
Proof.
  intros ordered.
  assert (H1 : pass_state (length preserved) (length (preserved ++ normal)) budget
                 ordered ([] ++ preserved) (emit preserved [] budget)).
  { apply (pass_state_emit _ _ budget [] preserved (normal ++ preamble) ([], budget)).
    - reflexivity.
    - cbn [snd tokens_of]. lia.
    - intros i s Hi. simpl in Hi. lia.
    - intros i Hi [Hb _]. rewrite length_app in Hb. simpl in Hi. lia. }
  simpl in H1.
  assert (H2 : pass_state (length preserved) (length (preserved ++ normal)) budget
                 ordered (preserved ++ normal)
                 (guarded_emit normal (emit preserved [] budget))).
  { apply (pass_state_guarded _ _ budget preserved normal preamble).
    - auto.
    - intros i Hi. rewrite length_app. lia.
    - exact H1. }
  replace ordered with ((preserved ++ normal) ++ preamble ++ []) at 2
    by (unfold ordered; rewrite app_nil_r, <- app_assoc; reflexivity).
  replace ordered with ((preserved ++ normal) ++ preamble ++ []) at 1
    by (unfold ordered; rewrite app_nil_r, <- app_assoc; reflexivity).
  rewrite (app_assoc (preserved ++ normal) preamble []), app_nil_r.
  replace ((preserved ++ normal) ++ preamble)
    with ((preserved ++ normal) ++ preamble ++ []) at 1
    by (rewrite app_nil_r; reflexivity).
  apply (pass_state_guarded _ _ budget (preserved ++ normal) preamble []).
  - auto.
  - intros i Hi. rewrite !length_app in *. lia.
  - rewrite app_nil_r, <- app_assoc. exact H2.
Qed.

(** C4. Priority order. When the text exceeds the budget and a preserve list
    is given: the sections, in document order, make up the text; they are
    the preamble "Header" (priority 0, the only member of its bucket) and one
    section per heading, Preserved if its title is in the list and Normal
    otherwise. The output is determined by a walk over the order Preserved,
    Normal, Preamble, each bucket in document order: every section is written
    whole as long as it fits into what is left of the budget, and the walk
    ends after the last section, or silently where the Normal or the
    Preamble pass would start with nothing left, or at the first section that
    does not fit, which is cut to four characters per token left and closed
    by the marker. A first Preserved section that fits the budget stands in
    full at the start of the output, before any other content. *)
Theorem truncate_priority_order (text : str) (budget : Z) (preserve : list str) :
  budget < estimate_tokens text ->
  preserve <> [] ->
  let sections := split_sections text preserve in
  let preserved := with_priority 2 sections in
  let normal := with_priority 1 sections in
  let preamble := with_priority 0 sections in
  let ordered := preserved ++ normal ++ preamble in
  let out := truncate_to_token_budget text budget (Some preserve) in
  let left := fun i : nat => budget - tokens_of (take i ordered) in
  let closed := fun i : nat =>
    (i = length preserved \/ i = length (preserved ++ normal)) /\ left i <= 0 in
  concat (map content sections) = text ++ [NL]
  /\ (exists header rest,
        sections = header :: rest /\ title header = lit "Header" /\ priority header = 0
        /\ preamble = [header]
        /\ Forall (fun s => priority s = if str_in (title s) preserve then 2 else 1)
                  rest)
  /\ (exists k,
        (forall i s, (i < k)%nat -> ordered !! i = Some s ->
           estimate_tokens (content s) <= left i /\ ~ closed i)
        /\ ((k = length ordered /\ out = concat (map content ordered))
            \/ ((k < length ordered)%nat /\ closed k
                /\ out = concat (map content (take k ordered)))
            \/ exists s,
                 ordered !! k = Some s /\ ~ closed k
                 /\ left k < estimate_tokens (content s)
                 /\ out = concat (map content (take k ordered))
                          ++ slice_to (content s) (left k * 4) ++ SECTION_MARKER))
  /\ (forall x others,
        preserved = x :: others ->
        estimate_tokens (content x) <= budget ->
        exists rest, out = content x ++ rest).
Proof.
  intros Hover Hne sections preserved normal preamble ordered out left closed.
  split; [|split; [|split]].
  - unfold sections.
    rewrite split_sections_all, fold_split_step_concat, split_lines_concat.
    reflexivity.
  - apply shaped_preamble, split_sections_shaped.
  - pose proof (passes_state preserved normal preamble budget) as Hst.
    cbv zeta in Hst. fold ordered in Hst.
    assert (Hout : out = (guarded_emit preamble
                            (guarded_emit normal (emit preserved [] budget))).1)
      by (unfold out; rewrite truncate_sections by assumption; reflexivity).
    unfold pass_state, stopped_at in Hst. rewrite <- Hout in Hst.
    change (walked (length preserved) (length (preserved ++ normal)) budget
                   ordered out).
    destruct Hst as [(H1 & _ & Hwhole)|[_ (k & Hwhole & Hstop)]].
    + exists (length ordered). split; [exact Hwhole|]. left. split; [reflexivity|].
      exact H1.
    + exists k. split; [exact Hwhole|]. right.
      destruct Hstop as [Hclosed|Hcut]; [left; exact Hclosed|right; exact Hcut].
  - intros x others Hx Hfit. unfold out.
    rewrite truncate_sections by assumption. simpl.
    fold sections. fold preserved. fold normal. fold preamble.
    destruct (guarded_emit_extends preamble
                (guarded_emit normal (emit preserved [] budget))) as [r0 ->].
    destruct (guarded_emit_extends normal (emit preserved [] budget)) as [r1 ->].
    rewrite Hx. simpl.
    destruct (Z.leb_spec (estimate_tokens (content x)) budget); [|lia].
    destruct (emit_extends others (content x)
                (budget - estimate_tokens (content x))) as [r2 ->].
    exists (r2 ++ r1 ++ r0). rewrite <- !app_assoc. reflexivity.
Qed.


Lemma truncate_priority_order_witness :
  5 < estimate_tokens shuffled_text
  /\ [lit "X"] <> []
  /\ truncate_to_token_budget shuffled_text 5 (Some [lit "X"])
     = (lit "## X" ++ [NL] ++ lit "body xy" ++ [NL])
         ++ (lit "## N" ++ [NL] ++ lit "b" ++ [NL]) ++ (lit "prefix" ++ [NL])
  /\ exists rest,
       truncate_to_token_budget shuffled_text 5 (Some [lit "X"])
       = (lit "## X" ++ [NL] ++ lit "body xy" ++ [NL]) ++ rest.
Proof.
  split; [vm_compute; reflexivity|]. split; [discriminate|].
  split; [vm_compute; reflexivity|].
  destruct (truncate_priority_order shuffled_text 5 [lit "X"]) as (_ & _ & _ & H);
    [vm_compute; reflexivity | discriminate |].
  apply (H (Section_ (lit "X") (lit "## X" ++ [NL] ++ lit "body xy" ++ [NL]) 2) []).
  - vm_compute. reflexivity.
  - vm_compute. discriminate.
Defined.

End PriorityOrderPasses.

Section TruncationEdges.

(** X6. A negative budget: without a preserve list every text counts as over
    the budget and loses its last [-4 * budget] characters (all of them when
    it is shorter) before the marker. *)
Theorem truncate_negative_budget (text : str) (budget : Z)
    (preserve_sections : option (list str)) :
  preserve_sections = None \/ preserve_sections = Some [] ->
  budget < 0 ->
  truncate_to_token_budget text budget preserve_sections
  = take (Z.to_nat (len text - 4 * - budget)) text ++ CONTENT_MARKER.
Proof.
  intros Hp Hneg. unfold truncate_to_token_budget.
  assert (0 <= estimate_tokens text).
  { unfold estimate_tokens, len. apply Z.div_pos; lia. }
  destruct (Z.leb_spec (estimate_tokens text) budget); [lia|].
  unfold slice_to. destruct (Z.ltb_spec (budget * 4) 0); [|lia].
  replace (len text + budget * 4) with (len text - 4 * - budget) by lia.
  destruct Hp as [->| ->]; reflexivity.
Qed.

Lemma truncate_negative_budget_witness :
  (@None (list str) = None \/ @None (list str) = Some [])
  /\ -1 < 0
  /\ truncate_to_token_budget (lit "abcdefgh") (-1) None
     = lit "abcd" ++ CONTENT_MARKER.
Proof.
  split; [left; reflexivity|]. split; [lia|].
  rewrite (truncate_negative_budget (lit "abcdefgh") (-1) None);
    [reflexivity|left; reflexivity|lia].
Defined.

(** X7. Silent loss: with a preserve list, a budget of zero or less and no
    section whose title is in the list, the result is the empty string,
    without any marker. *)
Theorem truncate_drops_everything (text : str) (budget : Z) (preserve : list str) :
  budget < estimate_tokens text ->
  preserve <> [] ->
  budget <= 0 ->
  with_priority 2 (split_sections text preserve) = [] ->
  truncate_to_token_budget text budget (Some preserve) = [].
Proof.
  intros Hover Hne Hb Hnone.
  rewrite truncate_sections by assumption. simpl. rewrite Hnone. simpl.
  unfold guarded_emit. simpl.
  destruct (Z.gtb_spec budget 0); [lia|]. simpl.
  destruct (Z.gtb_spec budget 0); [lia|]. reflexivity.
Qed.

Lemma truncate_drops_everything_witness :
  0 < estimate_tokens sample_text
  /\ [lit "Status Summary"] <> []
  /\ 0 <= 0
  /\ with_priority 2 (split_sections sample_text [lit "Status Summary"]) = []
  /\ truncate_to_token_budget sample_text 0 (Some [lit "Status Summary"]) = [].
Proof.
  split; [vm_compute; reflexivity|]. split; [discriminate|]. split; [lia|].
  split; [vm_compute; reflexivity|].
  apply truncate_drops_everything;
    [vm_compute; reflexivity|discriminate|lia|vm_compute; reflexivity].
Defined.

End TruncationEdges.

(* ===================================================================== *)
(** * Snapshots and assembly, further *)
(* ===================================================================== *)

Section LatestSnapshot.

Context {A : Type} (key : A -> Z).

Lemma max_by_first : forall l best pre post,
  Forall (fun x => key x < key best) pre ->
  Forall (fun x => key x <= key best) post ->
  exists pre' post',
    (pre ++ best :: post) ++ l = pre' ++ max_by key best l :: post'
    /\ Forall (fun x => key x < key (max_by key best l)) pre'
    /\ Forall (fun x => key x <= key (max_by key best l)) post'.
Proof.
  induction l as [|x l IH]; intros best pre post Hpre Hpost; simpl.
  - exists pre, post. rewrite app_nil_r. auto.
  - destruct (Z.ltb_spec (key best) (key x)) as [Hlt|Hge].
    + destruct (IH x (pre ++ best :: post) []) as (pre' & post' & E & H1 & H2).
      * apply Forall_app. split.
        -- eapply Forall_impl; [exact Hpre|]. simpl. intros; lia.
        -- constructor; [lia|].
           eapply Forall_impl; [exact Hpost|]. simpl. intros; lia.
      * constructor.
      * exists pre', post'. rewrite <- E, <- !app_assoc. simpl. auto.
    + destruct (IH best pre (post ++ [x])) as (pre' & post' & E & H1 & H2).
      * exact Hpre.
      * apply Forall_app. split; [exact Hpost|]. constructor; [lia|constructor].
      * exists pre', post'. rewrite <- E, <- !app_assoc. simpl.
        rewrite <- app_assoc. simpl. auto.
Qed.

End LatestSnapshot.

Section LatestSnapshotFile.

(** X8. The latest snapshot: when the directory holds [*.md] files, the file
    returned is one of them, no file is newer, every file listed before it is
    strictly older, and the text returned is the content of that file. *)
Theorem get_latest_snapshot_newest (w : world) (snapshot_type hierarchy_level : str)
    (entries : list file) :
  listdir w snapshot_type hierarchy_level = Some entries ->
  glob_md entries <> [] ->
  exists latest before after,
    get_latest_snapshot w snapshot_type hierarchy_level = (Some latest, data latest)
    /\ glob_md entries = before ++ latest :: after
    /\ endswith (name latest) (lit ".md") = true
    /\ Forall (fun f => st_mtime f < st_mtime latest) before
    /\ Forall (fun f => st_mtime f <= st_mtime latest) after.
Proof.
  intros Hdir Hne. unfold get_latest_snapshot. rewrite Hdir.
  destruct (glob_md entries) as [|f fs] eqn:Hglob; [contradiction|].
  destruct (max_by_first st_mtime fs f [] []) as (pre & post & E & H1 & H2);
    [constructor|constructor|].
  simpl in E. exists (max_by st_mtime f fs), pre, post.
  split; [reflexivity|]. split; [exact E|]. split; [|auto].
  assert (Hin : max_by st_mtime f fs ∈ glob_md entries).
  { rewrite Hglob, E. apply elem_of_app. right. left. }
  unfold glob_md in Hin. apply list_elem_of_filter in Hin as [Hmd _]. exact Hmd.
Qed.

Lemma get_latest_snapshot_newest_witness :
  listdir snapshot_world (lit "general") (lit "standard")
    = Some [File (lit "monday.md") 10 (lit "old");
            File (lit "notes.txt") 99 (lit "not a snapshot");
            File (lit "tuesday.md") 20 (lit "new");
            File (lit "copy.md") 20 (lit "same time")]
  /\ exists latest,
       get_latest_snapshot snapshot_world (lit "general") (lit "standard")
         = (Some latest, data latest)
       /\ latest = File (lit "tuesday.md") 20 (lit "new").
Proof.
  split; [reflexivity|].
  destruct (get_latest_snapshot_newest snapshot_world (lit "general") (lit "standard")
              [File (lit "monday.md") 10 (lit "old");
               File (lit "notes.txt") 99 (lit "not a snapshot");
               File (lit "tuesday.md") 20 (lit "new");
               File (lit "copy.md") 20 (lit "same time")])
    as (latest & before & after & Hget & _); [reflexivity|vm_compute; discriminate|].
  exists latest. split; [exact Hget|].
  assert (H : (get_latest_snapshot snapshot_world (lit "general") (lit "standard")).1
              = Some (File (lit "tuesday.md") 20 (lit "new")))
    by (vm_compute; reflexivity).
  rewrite Hget in H. injection H as ->. reflexivity.
Defined.

End LatestSnapshotFile.

Section SnapshotOrder.

Lemma str_in_priorities focus :
  str_in focus SNAPSHOT_TYPE_PRIORITIES = true ->
  focus = lit "general" \/ focus = lit "architecture"
  \/ focus = lit "knowledge_graph" \/ focus = lit "workflow".
Proof.
  unfold str_in, SNAPSHOT_TYPE_PRIORITIES, str_eqb. simpl.
  repeat case_bool_decide; simpl; try discriminate; auto.
Qed.

Ltac promoted_case others :=
  match goal with
  | |- context [filter ?P SNAPSHOT_TYPE_PRIORITIES] =>
      replace (filter P SNAPSHOT_TYPE_PRIORITIES) with others
        by (vm_compute; reflexivity)
  end;
  unfold SNAPSHOT_TYPE_PRIORITIES; cbn [app collect_snapshots].

Lemma sorted_collect_promoted w hierarchy_level focus :
  str_in focus SNAPSHOT_TYPE_PRIORITIES = true ->
  sort snapshot_priority false
       (collect_snapshots w hierarchy_level
          ([focus] ++ filter (fun st => st <> focus) SNAPSHOT_TYPE_PRIORITIES))
  = sort snapshot_priority false
         (collect_snapshots w hierarchy_level SNAPSHOT_TYPE_PRIORITIES).
Proof.
  intros Hin.
  destruct (str_in_priorities focus Hin) as [->|[->|[->| ->]]];
    [ promoted_case [lit "architecture"; lit "knowledge_graph"; lit "workflow"]
    | promoted_case [lit "general"; lit "knowledge_graph"; lit "workflow"]
    | promoted_case [lit "general"; lit "architecture"; lit "workflow"]
    | promoted_case [lit "general"; lit "architecture"; lit "knowledge_graph"] ];
    destruct (get_latest_snapshot w (lit "general") hierarchy_level) as [[p1|] c1];
    destruct (get_latest_snapshot w (lit "architecture") hierarchy_level) as [[p2|] c2];
    destruct (get_latest_snapshot w (lit "knowledge_graph") hierarchy_level)
      as [[p3|] c3];
    destruct (get_latest_snapshot w (lit "workflow") hierarchy_level) as [[p4|] c4];
    reflexivity.
Qed.

(** X9. Promoting the focus area among the snapshot types has no effect: the
    snapshots are sorted by the fixed priority list before they are written,
    so the text is the one obtained without any focus. *)
Theorem focus_promotion_is_undone (w : world) (detail_level : str)
    (focus_area : option str) (token_budget : Z) :
  load_snapshots w detail_level (requested_types focus_area) token_budget
  = load_snapshots w detail_level None token_budget.
Proof.
  unfold requested_types.
  destruct focus_area as [[|c focus]|]; try reflexivity.
  destruct (str_in (c :: focus) SNAPSHOT_TYPE_PRIORITIES) eqn:Hin; [|reflexivity].
  unfold load_snapshots. rewrite (sorted_collect_promoted w _ _ Hin). reflexivity.
Qed.

Lemma format_snapshots_exhausted w snapshots result remaining :
  remaining <= 0 -> format_snapshots w snapshots result remaining = result.
Proof.
  intros H. destruct snapshots as [|s snapshots]; [reflexivity|].
  simpl. destruct (Z.leb_spec remaining 0); [reflexivity|lia].
Qed.

Lemma collect_snapshots_none w hierarchy_level types :
  (forall t, no_snapshot_files w t hierarchy_level) ->
  collect_snapshots w hierarchy_level types = [].
Proof.
  intros Hnone. induction types as [|t types IH]; [reflexivity|].
  simpl. rewrite (get_latest_snapshot_missing w t hierarchy_level (Hnone t)).
  exact IH.
Qed.

Lemma load_snapshots_none w detail_level snapshot_types token_budget :
  (forall t, no_snapshot_files w t (hierarchy_level_of detail_level)) ->
  load_snapshots w detail_level snapshot_types token_budget
  = lit "# Project Snapshots" ++ [NL; NL].
Proof.
  intros Hnone. unfold load_snapshots.
  rewrite (collect_snapshots_none w _ _ Hnone). reflexivity.
Qed.

(** X10. With a budget of zero or less, or without any snapshot file at the
    level, the snapshot part is its title line alone. *)
Theorem load_snapshots_title_only (w : world) (detail_level : str)
    (snapshot_types : option (list str)) (token_budget : Z) :
  token_budget <= 0
  \/ (forall t, no_snapshot_files w t (hierarchy_level_of detail_level)) ->
  load_snapshots w detail_level snapshot_types token_budget
  = lit "# Project Snapshots" ++ [NL; NL].
Proof.
  intros [Hb|Hnone]; unfold load_snapshots.
  - apply format_snapshots_exhausted. exact Hb.
  - apply load_snapshots_none. exact Hnone.
Qed.

Lemma load_snapshots_title_only_witness :
  (0 <= 0
   \/ (forall t, no_snapshot_files sample_world t (hierarchy_level_of (lit "minimal"))))
  /\ load_snapshots sample_world (lit "minimal") None 0
     = lit "# Project Snapshots" ++ [NL; NL].
Proof.
  split; [left; lia|].
  apply (load_snapshots_title_only sample_world (lit "minimal") None 0).
  left. lia.
Defined.

End SnapshotOrder.

Section EmptyStore.

(** X11. A store without documents and snapshot directories: whatever the detail
    level, the focus area and the ceiling, a call that returns gives the
    same text, the headers with the three placeholders, which no budget
    shortens. *)
Theorem empty_store_text (w : world) (detail_level : str) (focus_area : option str)
    (max_tokens : Z) (t t' : tables) (out : str) :
  readme_md w = None -> architecture_md w = None -> glossary_md w = None ->
  (forall snapshot_type hierarchy_level,
     listdir w snapshot_type hierarchy_level = None) ->
  load_project_context w detail_level focus_area max_tokens t = (Ok out, t') ->
  out = empty_store_context (strftime_now w).
Proof.
  intros Hr Ha Hg Hdir. rewrite load_project_context_run.
  destruct (adjust_budgets detail_level focus_area max_tokens t) as [[l|e] t1];
    [|discriminate].
  intros [= <- <-].
  rewrite (load_snapshots_none w detail_level).
  - unfold documents_part, load_readme, load_architecture, load_glossary,
      load_document, empty_store_context.
    rewrite Hr, Ha, Hg. rewrite <- !app_assoc. reflexivity.
  - intros st. unfold no_snapshot_files. rewrite Hdir. exact I.
Qed.

Lemma empty_store_text_witness :
  exists out t',
    load_project_context empty_world (lit "comprehensive") (Some (lit "agent")) 1
                         DEFAULT_TOKEN_BUDGETS = (Ok out, t')
    /\ out = empty_store_context (lit "2024-01-01 00:00:00").
Proof.
  destruct (load_project_context empty_world (lit "comprehensive")
              (Some (lit "agent")) 1 DEFAULT_TOKEN_BUDGETS)
    as [[out|e] t'] eqn:Hcall; [|vm_compute in Hcall; discriminate].
  exists out, t'. split; [reflexivity|].
  apply (empty_store_text empty_world (lit "comprehensive") (Some (lit "agent")) 1
           DEFAULT_TOKEN_BUDGETS t' out); try reflexivity. exact Hcall.
Defined.

End EmptyStore.

(* ===================================================================== *)
(** * The budget tables across calls *)
(* ===================================================================== *)

Section TableFrame.

Lemma frames_ret {A} l (a : A) : frames l (ret a).
Proof. intros t l' _. reflexivity. Qed.

Lemma frames_lift {A} l (r : res A) : frames l (lift r).
Proof. intros t l' _. reflexivity. Qed.

Lemma frames_bind {A B} l (m : M A) (f : A -> M B) :
  frames l m -> (forall a, frames l (f a)) -> frames l (m ≫= f).
Proof.
  intros Hm Hf t l' Hne. unfold mbind, M_bind, bind.
  specialize (Hm t l' Hne). destruct (m t) as [[a|e] t1]; simpl in *.
  - rewrite (Hf a t1 l' Hne). exact Hm.
  - exact Hm.
Qed.

Lemma entry_set_entry_other t l l' b : l' <> l -> entry (set_entry t l b) l' = entry t l'.
Proof. destruct l, l'; simpl; congruence. Qed.

Lemma frames_scale_key l k f : frames l (scale_key l k f).
Proof.
  intros t l' Hne. rewrite scale_key_run.
  destruct (scaled _ _); simpl; [apply entry_set_entry_other; exact Hne|reflexivity].
Qed.

Lemma frames_write l k v : frames l (write l k v).
Proof. intros t l' Hne. apply entry_set_entry_other. exact Hne. Qed.

Lemma frames_for_each {A} l (xs : list A) (body : A -> M unit) :
  (forall x, frames l (body x)) -> frames l (for_each xs body).
Proof.
  intros Hb. induction xs as [|x xs IH]; simpl.
  - apply frames_ret.
  - apply frames_bind; [apply Hb|intros _; exact IH].
Qed.

Lemma frames_focus_boost l focus_area : frames l (focus_boost l focus_area).
Proof.
  rewrite focus_boost_boost. destruct (boosted_key focus_area); simpl.
  - apply frames_scale_key.
  - apply frames_ret.
Qed.

Lemma frames_cap_budgets l max_tokens : frames l (cap_budgets l max_tokens).
Proof.
  unfold cap_budgets. apply frames_bind; [intros t l' _; reflexivity|].
  intros vs. destruct (_ >? _); [|apply frames_ret].
  apply frames_bind; [apply frames_lift|]. intros s.
  apply frames_bind; [|intros _; apply frames_write].
  apply frames_for_each. intros k.
  destruct (negb _); [apply frames_scale_key|apply frames_ret].
Qed.

Lemma frames_adjust_budgets detail_level focus_area max_tokens :
  frames (resolve detail_level) (adjust_budgets detail_level focus_area max_tokens).
Proof.
  unfold adjust_budgets.
  apply frames_bind; [apply frames_focus_boost|]. intros _.
  apply frames_bind; [apply frames_cap_budgets|]. intros _. apply frames_ret.
Qed.

Lemma load_project_context_tables w detail_level focus_area max_tokens t :
  (load_project_context w detail_level focus_area max_tokens t).2
  = (adjust_budgets detail_level focus_area max_tokens t).2.
Proof.
  rewrite load_project_context_run.
  destruct (adjust_budgets detail_level focus_area max_tokens t) as [[l|e] t'];
    reflexivity.
Qed.

(** X12. A call writes to one entry of the budget tables only, the one of its
    detail level ("standard" for an unknown level): the two other entries
    are as before, also when the call raises. *)
Theorem other_levels_untouched (w : world) (detail_level : str)
    (focus_area : option str) (max_tokens : Z) (t : tables) (l' : level) :
  l' <> resolve detail_level ->
  entry (load_project_context w detail_level focus_area max_tokens t).2 l'
  = entry t l'.
Proof.
  intros Hne. rewrite load_project_context_tables.
  apply frames_adjust_budgets. exact Hne.
Qed.

Lemma other_levels_untouched_witness :
  Minimal <> resolve (lit "detailed")
  /\ entry (load_project_context sample_world (lit "detailed") None 10
                                 DEFAULT_TOKEN_BUDGETS).2 Minimal
     = entry DEFAULT_TOKEN_BUDGETS Minimal.
Proof.
  split; [vm_compute; discriminate|].
  apply other_levels_untouched. vm_compute. discriminate.
Defined.

End TableFrame.

Section TableEdges.

Lemma cap_budgets_zero_sum l max_tokens t :
  values_sum (entry t l) = 0 -> max_tokens < 0 ->
  cap_budgets l max_tokens t = (Raise ZeroDivisionError, t).
Proof.
  intros Hsum Hneg. unfold cap_budgets, values, mbind, M_bind, bind.
  fold (values_sum (entry t l)). rewrite Hsum.
  destruct (Z.gtb_spec 0 max_tokens); [|lia]. reflexivity.
Qed.

(** X13. Division by zero: on an entry whose five values sum to 0 a negative
    ceiling makes the call raise [ZeroDivisionError] (when no focus area
    boosts a component first); the tables are left as they were. *)
Theorem zero_sum_raises (w : world) (detail_level : str) (focus_area : option str)
    (max_tokens : Z) (t : tables) :
  boosted_key focus_area = None ->
  values_sum (entry t (resolve detail_level)) = 0 ->
  max_tokens < 0 ->
  load_project_context w detail_level focus_area max_tokens t
  = (Raise ZeroDivisionError, t).
Proof.
  intros Hk Hsum Hneg.
  rewrite load_project_context_run, adjust_budgets_run, Hk. simpl.
  rewrite cap_budgets_zero_sum by assumption. reflexivity.
Qed.

Lemma zero_sum_raises_witness :
  boosted_key None = None
  /\ values_sum (entry drained_tables (resolve (lit "standard"))) = 0
  /\ -1 < 0
  /\ load_project_context sample_world (lit "standard") None (-1) drained_tables
     = (Raise ZeroDivisionError, drained_tables).
Proof.
  split; [reflexivity|]. split; [vm_compute; reflexivity|]. split; [lia|].
  apply zero_sum_raises; [reflexivity|vm_compute; reflexivity|lia].
Defined.

(** X14. Without a boost and with a ceiling that the five values of the entry
    do not exceed, a call changes nothing in the tables. *)
Theorem ample_ceiling_keeps_tables (w : world) (detail_level : str)
    (focus_area : option str) (max_tokens : Z) (t : tables) :
  boosted_key focus_area = None ->
  values_sum (entry t (resolve detail_level)) <= max_tokens ->
  (load_project_context w detail_level focus_area max_tokens t).2 = t
  /\ exists out,
       (load_project_context w detail_level focus_area max_tokens t).1 = Ok out.
Proof.
  intros Hk Hsum.
  rewrite load_project_context_run, adjust_budgets_run, Hk. simpl.
  rewrite cap_budgets_noop by exact Hsum. simpl. split; [reflexivity|].
  eexists. reflexivity.
Qed.

Lemma ample_ceiling_keeps_tables_witness :
  boosted_key (Some (lit "notes")) = None
  /\ values_sum (entry DEFAULT_TOKEN_BUDGETS (resolve (lit "standard"))) <= 16000
  /\ (load_project_context sample_world (lit "standard") (Some (lit "notes")) 16000
                           DEFAULT_TOKEN_BUDGETS).2
     = DEFAULT_TOKEN_BUDGETS.
Proof.
  split; [vm_compute; reflexivity|]. split; [vm_compute; discriminate|].
  apply (ample_ceiling_keeps_tables sample_world (lit "standard")
           (Some (lit "notes")) 16000 DEFAULT_TOKEN_BUDGETS);
    [vm_compute; reflexivity|vm_compute; discriminate].
Defined.

Lemma scale_key_total l k f t r t' :
  k <> Total -> scale_key l k f t = (r, t') -> total (entry t' l) = total (entry t l).
Proof.
  intros Hk. rewrite scale_key_run.
  destruct (scaled _ _); intros [= <- <-]; [|reflexivity].
  rewrite entry_set_entry. destruct k; try reflexivity. contradiction.
Qed.

Lemma boost_total l k t r t' :
  k ∈ focus_keys -> boost l k t = (r, t') -> total (entry t' l) = total (entry t l).
Proof.
  intros Hk. unfold focus_keys in Hk.
  repeat (apply elem_of_cons in Hk as [->|Hk]);
    [| | | |apply elem_of_nil in Hk; contradiction]; simpl.
  - intros [= <- <-]. reflexivity.
  - apply scale_key_total. discriminate.
  - apply scale_key_total. discriminate.
  - apply scale_key_total. discriminate.
Qed.

Lemma cap_budgets_total l max_tokens t t' :
  cap_budgets l max_tokens t = (Ok tt, t') ->
  (values_sum (entry t l) <= max_tokens /\ t' = t)
  \/ (max_tokens < values_sum (entry t l) /\ total (entry t' l) = max_tokens).
Proof.
  destruct (Z.le_gt_cases (values_sum (entry t l)) max_tokens) as [Hle|Hgt].
  - rewrite cap_budgets_noop by exact Hle. intros [= <-]. left. auto.
  - intros Hcap. right. split; [lia|].
    revert Hcap. unfold cap_budgets, values, mbind, M_bind, bind.
    fold (values_sum (entry t l)).
    destruct (Z.gtb_spec (values_sum (entry t l)) max_tokens); [|lia].
    unfold lift. destruct (true_div _ _) as [s|e]; [|discriminate].
    destruct (for_each keys _ t) as [[u|e] t1]; [|discriminate].
    unfold write. intros [= <-]. rewrite entry_set_entry. reflexivity.
Qed.

(** X15. The stored total after a call that returns: it is [max_tokens] when the
    capping step scaled, and otherwise the total stored before the call, so
    a focus boost never enters it. *)
Theorem total_after_call (w : world) (detail_level : str) (focus_area : option str)
    (max_tokens : Z) (t t' : tables) (out : str) :
  load_project_context w detail_level focus_area max_tokens t = (Ok out, t') ->
  let l := resolve detail_level in
  (total (entry t' l) = total (entry t l)
   /\ values_sum (entry t' l) <= max_tokens)
  \/ total (entry t' l) = max_tokens.
Proof.
  intros Hcall l. rewrite load_project_context_run, adjust_budgets_run in Hcall.
  fold l in Hcall.
  destruct (boost l (boosted_key focus_area) t) as [[u|e] t1] eqn:Hb;
    [|discriminate].
  apply boost_total in Hb; [|apply boosted_key_cases].
  destruct (cap_budgets l max_tokens t1) as [[[]|e] t2] eqn:Hc; [|discriminate].
  injection Hcall as _ <-.
  destruct (cap_budgets_total l max_tokens t1 t2 Hc) as [[Hle ->]|[_ Ht]].
  - left. split; [exact Hb|exact Hle].
  - right. exact Ht.
Qed.

Lemma total_after_call_witness :
  exists out t',
    load_project_context sample_world (lit "standard") (Some (lit "architecture"))
                         100000 DEFAULT_TOKEN_BUDGETS = (Ok out, t')
    /\ ((total (entry t' (resolve (lit "standard")))
          = total (entry DEFAULT_TOKEN_BUDGETS (resolve (lit "standard")))
         /\ values_sum (entry t' (resolve (lit "standard"))) <= 100000)
        \/ total (entry t' (resolve (lit "standard"))) = 100000).
Proof.
  destruct (load_project_context sample_world (lit "standard")
              (Some (lit "architecture")) 100000 DEFAULT_TOKEN_BUDGETS)
    as [[out|e] t'] eqn:Hcall; [|vm_compute in Hcall; discriminate].
  exists out, t'. split; [reflexivity|].
  exact (total_after_call _ _ _ _ _ _ _ Hcall).
Defined.

End TableEdges.

Section Doubling.

Ltac stdz :=
  change IntDef.Z.sub with Z.sub in *; change IntDef.Z.add with Z.add in *;
  change IntDef.Z.max with Z.max in *; change IntDef.Z.min with Z.min in *;
  change IntDef.Z.leb with Z.leb in *; change IntDef.Z.eqb with Z.eqb in *;
  change IntDef.Z.compare with Z.compare in *;
  change IntDef.Z.opp with Z.opp in *.

Lemma shift52 m : (m * 4503599627370496)%positive = Pos.iter xO m 52.
Proof.
  apply Pos2Z.inj. rewrite iter_xO_mul, Pos2Z.inj_mul. reflexivity.
Qed.

Lemma SFmul_two s m e :
  Pos.size m = 53%positive -> -1074 <= e <= 970 ->
  SFmul prec emax (S754_finite s m e) float_2_0 = S754_finite s m (e + 1).
Proof.
  intros Hm He. unfold float_2_0, SFmul.
  replace (xorb s false) with s by (destruct s; reflexivity).
  rewrite shift52.
  unfold binary_round_aux, shr_fexp. cbn [Zdigits2].
  rewrite digits2_size, size_iter_xO, Hm. stdz.
  assert (Hf : fexp prec emax (Z.pos (53 + 52) + (e + -51)) - (e + -51) = 52).
  { unfold fexp, SpecFloat.emin, prec, emax. lia. }
  rewrite Hf.
  assert (Hshr : shr (shr_record_of_loc (Z.pos (Pos.iter xO m 52)) loc_Exact)
                     (e + -51) 52
                 = (Build_shr_record (Z.pos m) false false, e + -51 + 52))
    by reflexivity.
  rewrite Hshr. cbn [shr_m loc_of_shr_record round_nearest_even Zdigits2
                     shr_record_of_loc].
  rewrite digits2_size, Hm. stdz.
  assert (Hf' : fexp prec emax (53 + (e + -51 + 52)) - (e + -51 + 52) = 0).
  { unfold fexp, SpecFloat.emin, prec, emax. lia. }
  rewrite Hf'. cbn [shr shr_m].
  destruct (Z.leb_spec (e + -51 + 52) (emax - prec));
    [|unfold emax, prec in *; lia].
  f_equal. lia.
Qed.

(** Doubling is exact: [int(c * 2.0)] is [2 * c] for every integer of at
    most 53 bits. *)
Lemma scaled_double c : 0 <= c < 2 ^ 53 -> scaled c float_2_0 = Ok (2 * c).
Proof.
  intros Hc. unfold scaled, int_mul_float, float_of_int.
  destruct (Z.eq_dec c 0) as [->|Hne]; [reflexivity|].
  destruct (binary_normalize_small c) as (m & e & Hb & Hm & He & Hme); [lia|].
  rewrite Hb, SFmul_two by (try exact Hm; lia).
  unfold int_of_float. f_equal.
  destruct (Z.leb_spec 0 (e + 1)) as [H0|H0].
  - rewrite Z.shiftl_mul_pow2 by lia. rewrite Hme.
    assert (E : e = 0 \/ e = -1) by lia. destruct E as [->| ->]; simpl; lia.
  - rewrite Z.shiftr_div_pow2 by lia. rewrite Hme.
    replace (- e) with (1 + - (e + 1)) by lia.
    rewrite Z.pow_add_r by lia. change (2 ^ 1) with 2.
    rewrite Z.mul_assoc, Z.div_mul; [lia|].
    apply Z.pow_nonzero; lia.
Qed.

Lemma values_sum_set b k v : values_sum (set b k v) = values_sum b - get b k + v.
Proof. destruct b, k; unfold values_sum; simpl; lia. Qed.

Lemma boosted_key_not_total focus_area k : boosted_key focus_area = Some k -> k <> Total.
Proof.
  intros H. pose proof (boosted_key_cases focus_area) as Hc. rewrite H in Hc.
  unfold focus_keys in Hc.
  repeat (apply elem_of_cons in Hc as [Hc|Hc]); try discriminate;
    try (injection Hc as ->; discriminate).
  apply elem_of_nil in Hc. contradiction.
Qed.

Lemma boost_doubles w detail_level focus_area max_tokens t k :
  boosted_key focus_area = Some k ->
  0 <= get (entry t (resolve detail_level)) k < 2 ^ 53 ->
  values_sum (entry t (resolve detail_level))
    + get (entry t (resolve detail_level)) k <= max_tokens ->
  let l := resolve detail_level in
  exists out,
    load_project_context w detail_level focus_area max_tokens t
    = (Ok out, set_entry t l (set (entry t l) k (2 * get (entry t l) k))).
Proof.
  intros Hk Hc Hsum l.
  rewrite load_project_context_run, adjust_budgets_run, Hk. fold l.
  simpl boost. rewrite scale_key_run, scaled_double by exact Hc.
  rewrite cap_budgets_noop.
  - eexists. reflexivity.
  - rewrite entry_set_entry, values_sum_set. fold l in Hsum. lia.
Qed.

(** X16. The focus boost is exact and is kept: with a ceiling that the values
    still fit after the boost, a call with a focus area stores twice the
    allowance of the boosted component in the tables and changes nothing
    else. *)
Theorem focus_boost_doubles_stored (w : world) (detail_level : str)
    (focus_area : option str) (max_tokens : Z) (t : tables) (k : key) :
  boosted_key focus_area = Some k ->
  0 <= get (entry t (resolve detail_level)) k < 2 ^ 53 ->
  values_sum (entry t (resolve detail_level))
    + get (entry t (resolve detail_level)) k <= max_tokens ->
  let l := resolve detail_level in
  exists out,
    load_project_context w detail_level focus_area max_tokens t
    = (Ok out, set_entry t l (set (entry t l) k (2 * get (entry t l) k))).
Proof. exact (boost_doubles w detail_level focus_area max_tokens t k). Qed.

Lemma focus_boost_doubles_stored_witness :
  boosted_key (Some (lit "general")) = Some Readme
  /\ 0 <= get (entry DEFAULT_TOKEN_BUDGETS (resolve (lit "minimal"))) Readme < 2 ^ 53
  /\ values_sum (entry DEFAULT_TOKEN_BUDGETS (resolve (lit "minimal")))
       + get (entry DEFAULT_TOKEN_BUDGETS (resolve (lit "minimal"))) Readme <= 6500
  /\ exists out,
       load_project_context sample_world (lit "minimal") (Some (lit "general")) 6500
                            DEFAULT_TOKEN_BUDGETS
       = (Ok out,
          set_entry DEFAULT_TOKEN_BUDGETS Minimal (Budgets 1000 1000 500 1000 3000)).
Proof.
  split; [vm_compute; reflexivity|].
  split; [vm_compute; split; [discriminate|reflexivity]|].
  split; [vm_compute; discriminate|].
  apply (focus_boost_doubles_stored sample_world (lit "minimal")
           (Some (lit "general")) 6500 DEFAULT_TOKEN_BUDGETS Readme).
  - vm_compute; reflexivity.
  - vm_compute; split; [discriminate|reflexivity].
  - vm_compute; discriminate.
Defined.

Lemma set_set b k v v' : set (set b k v) k v' = set b k v'.
Proof. destruct b, k; reflexivity. Qed.

Lemma get_set b k v : get (set b k v) k = v.
Proof. destruct b, k; reflexivity. Qed.

Lemma set_get b k : set b k (get b k) = b.
Proof. destruct b, k; reflexivity. Qed.

Lemma set_entry_entry t l : set_entry t l (entry t l) = t.
Proof. destruct t, l; reflexivity. Qed.

Lemma after_calls_doubles w detail_level focus_area max_tokens k n : forall t,
  boosted_key focus_area = Some k ->
  0 <= get (entry t (resolve detail_level)) k ->
  2 ^ Z.of_nat n * get (entry t (resolve detail_level)) k <= 2 ^ 53 ->
  values_sum (entry t (resolve detail_level))
    + (2 ^ Z.of_nat n - 1) * get (entry t (resolve detail_level)) k <= max_tokens ->
  let l := resolve detail_level in
  after_calls w detail_level focus_area max_tokens n t
  = set_entry t l (set (entry t l) k (2 ^ Z.of_nat n * get (entry t l) k)).
Proof.
  induction n as [|n IH]; intros t Hk H0 Hbig Hsum l.
  - simpl. rewrite Z.mul_1_l, set_get, set_entry_entry. reflexivity.
  - rewrite Nat2Z.inj_succ, Z.pow_succ_r in Hbig, Hsum |- * by lia.
    assert (Hp : 1 <= 2 ^ Z.of_nat n) by (apply Z.pow_le_mono_r with (b := 0); lia).
    destruct (boost_doubles w detail_level focus_area max_tokens t k Hk)
      as [out Hcall]; [nia|nia|].
    cbn [after_calls]. rewrite Hcall. cbn [snd]. subst l.
    rewrite IH; rewrite ?entry_set_entry, ?get_set, ?values_sum_set;
      try assumption; try nia.
    rewrite set_entry_twice, set_set. f_equal. f_equal. nia.
Qed.

(** X17. The boost compounds: [n] successive calls with the same focus area and
    an ample ceiling leave [2^n] times the allowance of the boosted
    component in the tables. *)
Theorem repeated_focus_compounds (w : world) (detail_level : str)
    (focus_area : option str) (max_tokens : Z) (k : key) (n : nat) (t : tables) :
  boosted_key focus_area = Some k ->
  0 <= get (entry t (resolve detail_level)) k ->
  2 ^ Z.of_nat n * get (entry t (resolve detail_level)) k <= 2 ^ 53 ->
  values_sum (entry t (resolve detail_level))
    + (2 ^ Z.of_nat n - 1) * get (entry t (resolve detail_level)) k <= max_tokens ->
  let l := resolve detail_level in
  after_calls w detail_level focus_area max_tokens n t
  = set_entry t l (set (entry t l) k (2 ^ Z.of_nat n * get (entry t l) k)).
Proof. exact (after_calls_doubles w detail_level focus_area max_tokens k n t). Qed.

Lemma repeated_focus_compounds_witness :
  boosted_key (Some (lit "architecture")) = Some Architecture
  /\ after_calls sample_world (lit "standard") (Some (lit "architecture")) 100000 3
                 DEFAULT_TOKEN_BUDGETS
     = set_entry DEFAULT_TOKEN_BUDGETS Standard (Budgets 1000 16000 1000 4000 8000).
Proof.
  split; [vm_compute; reflexivity|].
  apply (repeated_focus_compounds sample_world (lit "standard")
           (Some (lit "architecture")) 100000 Architecture 3 DEFAULT_TOKEN_BUDGETS).
  - vm_compute; reflexivity.
  - vm_compute; discriminate.
  - vm_compute; discriminate.
  - vm_compute; discriminate.
Defined.

End Doubling.

(* ===================================================================== *)
(** * Knowledge-graph relationships and snapshots *)
(* ===================================================================== *)

Section Relationships.





End Relationships.

Section GraphSnapshot.


Lemma has_key_Some (d : dict) k v : d !! k = Some v -> has_key d k = true.
Proof. intros H. unfold has_key. apply bool_decide_eq_true_2. eauto. Qed.

Lemma has_key_None (d : dict) k : d !! k = None -> has_key d k = false.
Proof.
  intros H. unfold has_key. apply bool_decide_eq_false_2.
  rewrite H. intros [v Hv]. discriminate.
Qed.

Lemma failure_success e : failure e !! lit "success" = Some (VBool false).
Proof. unfold failure. apply lookup_insert_eq. Qed.

(** A snapshot with both keys, each holding a value with a length, is
    imported: the response reports the two lengths. *)
Lemma import_sized (snapshot : dict) ve vr ne nr :
  snapshot !! lit "entities" = Some ve ->
  snapshot !! lit "relationships" = Some vr ->
  py_len ve = inr ne -> py_len vr = inr nr ->
  import_graph_snapshot snapshot
  = (imported ne nr,
     [Line (lit "Imported graph snapshot with " ++ str_of_int ne
              ++ lit " entities and " ++ str_of_int nr ++ lit " relationships")]).
Proof.
  intros He Hr Hle Hlr. unfold import_graph_snapshot, get_or_empty.
  rewrite (has_key_Some _ _ _ He), (has_key_Some _ _ _ Hr), He, Hr. simpl.
  rewrite Hle, Hlr. reflexivity.
Qed.

(** X19. [import_graph_snapshot] never raises, and it reports success exactly
    when both keys are present and both values have a length; the response
    then carries the two lengths. *)
Theorem import_succeeds_iff_sized (snapshot : dict) :
  (import_graph_snapshot snapshot).1 !! lit "success" = Some (VBool true)
  <-> exists ve vr ne nr,
        snapshot !! lit "entities" = Some ve
        /\ snapshot !! lit "relationships" = Some vr
        /\ py_len ve = inr ne /\ py_len vr = inr nr
        /\ (import_graph_snapshot snapshot).1 = imported ne nr.
Proof.
  split.
  - unfold import_graph_snapshot, get_or_empty.
    destruct (snapshot !! lit "entities") as [ve|] eqn:He.
    2:{ rewrite (has_key_None _ _ He). simpl. rewrite failure_success. discriminate. }
    destruct (snapshot !! lit "relationships") as [vr|] eqn:Hr.
    2:{ rewrite (has_key_None _ _ Hr), orb_true_r. simpl.
        rewrite failure_success. discriminate. }
    rewrite (has_key_Some _ _ _ He), (has_key_Some _ _ _ Hr). simpl.
    destruct (py_len ve) as [e|ne] eqn:Hle;
      [simpl; rewrite failure_success; discriminate|].
    destruct (py_len vr) as [e|nr] eqn:Hlr;
      [simpl; rewrite failure_success; discriminate|].
    intros _. exists ve, vr, ne, nr. repeat split; assumption.
  - intros (ve & vr & ne & nr & He & Hr & Hle & Hlr & _).
    rewrite (import_sized snapshot ve vr ne nr) by assumption.
    unfold imported. apply lookup_insert_eq.
Qed.

Lemma import_succeeds_iff_sized_witness :
  (import_graph_snapshot
     (<[lit "entities" := VList [VInt 1; VInt 2]]>
        (<[lit "relationships" := VStr (lit "abc")]> ∅))).1 !! lit "success"
  = Some (VBool true).
Proof.
  apply import_succeeds_iff_sized.
  exists (VList [VInt 1; VInt 2]), (VStr (lit "abc")), 2, 3.
  repeat split; reflexivity.
Defined.

(** X20. What is exported can be imported: the snapshot that
    [export_graph_snapshot] returns is accepted by [import_graph_snapshot],
    with no entity and no relationship. *)
Theorem export_then_import (isoformat_now : str) :
  export_success (export_graph_snapshot isoformat_now).1 = true
  /\ import_graph_snapshot (export_snapshot (export_graph_snapshot isoformat_now).1)
     = (imported 0 0,
        [Line (lit "Imported graph snapshot with 0 entities and 0 relationships")]).
Proof.
  split; [reflexivity|].
  rewrite (import_sized _ (VList []) (VList []) 0 0); reflexivity.
Qed.

End GraphSnapshot.
